(** * ObjectDetector: a shallow embedding of the detection pipeline

    The JavaScript class [ObjectDetector] (OpenCV.js based) is embedded
    function by function.

    Numbers.  JavaScript numbers are modelled as exact rationals ([Q]): every
    quantity the pipeline handles for a contour that OpenCV returns is a
    finite number (the area, the sides of the bounding rectangle and the arc
    length are finite, the sides are positive integers), and the code only
    compares, subtracts, divides and takes minima and maxima of them.
    Rounding of the binary64 operations is not modelled; equalities between
    numbers are stated with [==].

    Collaborators.  OpenCV, the 2D canvas context and the typed array of the
    source matrix are outside the class.  Their calls appear here as fields
    of an environment record ([Env]) that may answer with a thrown value, so
    that the [try]/[catch] of the class has something to catch.  Three rules
    of the platform are written out, because the methods depend on them:
    [getImageData] refuses an empty rectangle, [TypedArray.prototype.set]
    refuses a source longer than its target, and an OpenCV.js object (an
    Embind handle) refuses to be used or deleted once [delete()] has been
    called on it.  The geometry primitives ([cv.contourArea],
    [cv.boundingRect], [cv.arcLength]) are total on the contours that
    [cv.findContours] returns; a contour is the record of their results.

    Methods.  A method is a function from the instance to a completion
    (normal or thrown) and the instance it leaves.

    The summary and the description of the scene, the label and colour of a
    drawn box, and the swipe handlers of the application's review screen are
    embedded the same way, after the pipeline. *)

From Stdlib Require Import QArith Qminmax Qabs ZArith List String Bool Lia Lqa.
From Stdlib Require Import Permutation Sorted Ascii DecimalString Qround.
Import ListNotations.

Open Scope Q_scope.

(** ** Numbers *)

Module Js.

(** The relational operators of the language on finite numbers. *)
Definition lt (a b : Q) : bool := negb (Qle_bool b a).
Definition gt (a b : Q) : bool := lt b a.
Definition le (a b : Q) : bool := Qle_bool a b.
Definition ge (a b : Q) : bool := Qle_bool b a.

(** [Math.PI]: the binary64 number nearest to pi. *)
Definition Math_PI : Q := 884279719003555 # 281474976710656.

Definition Math_min (a b : Q) : Q := Qmin a b.
Definition Math_max (a b : Q) : Q := Qmax a b.
Definition Math_abs (a : Q) : Q := Qabs a.

End Js.

Declare Scope js_scope.
Delimit Scope js_scope with js.
Infix "<." := Js.lt (at level 70, no associativity) : js_scope.
Infix ">." := Js.gt (at level 70, no associativity) : js_scope.
Infix "<=." := Js.le (at level 70, no associativity) : js_scope.
Infix ">=." := Js.ge (at level 70, no associativity) : js_scope.
Open Scope js_scope.

(** ** Data *)

(** [cv.Rect]: the bounding rectangle, with integer fields. *)
Module Rect.
Record t : Type := mk { x : Z; y : Z; width : Z; height : Z }.
End Rect.

(** [this.objectTypes]: the labels are strings in the source. *)
Module objectTypes.
Open Scope string_scope.
Definition HUMAN : string := "person".
Definition FACE : string := "face".
Definition RECTANGULAR : string := "rectangular object".
Definition CIRCULAR : string := "circular object".
Definition SQUARE : string := "square object".
Definition VERTICAL : string := "vertical object".
Definition HORIZONTAL : string := "horizontal object".
Definition SMALL : string := "small object".
Definition LARGE : string := "large object".
Definition UNKNOWN : string := "object".
End objectTypes.

(** The thresholds the constructor stores in the instance; nothing in the
    class assigns them again. *)
Definition minContourArea : Q := 1500.
Definition humanAspectRatioMin : Q := 0.3.
Definition humanAspectRatioMax : Q := 0.8.

(** The detection object built in [analyzeContours]. *)
Module Detection.
Record t : Type := mk {
  type : string;
  rect : Rect.t;
  area : Q;
  aspectRatio : Q;
  circularity : Q;
  extent : Q;
  confidence : Q;
  center : Q * Q
}.
End Detection.

(** ** Classification *)

Definition isLikelyHuman (rect : Rect.t) (aspectRatio area : Q) : bool :=
  if (aspectRatio <. humanAspectRatioMin) || (aspectRatio >. humanAspectRatioMax)
  then false
  else if (area <. 10000) || (area >. 200000)
  then false
  else if (Rect.height rect <? 100)%Z
  then false
  else true.

Definition classifyObject (rect : Rect.t) (aspectRatio extent circularity area : Q)
  : string :=
  if isLikelyHuman rect aspectRatio area then objectTypes.HUMAN
  else if circularity >. 0.7 then objectTypes.CIRCULAR
  else if (aspectRatio >=. 0.8) && (aspectRatio <=. 1.2) then objectTypes.SQUARE
  else if (aspectRatio >. 1.5) || (aspectRatio <. 0.67) then
    (if aspectRatio >. 1.5 then objectTypes.HORIZONTAL
     else objectTypes.VERTICAL)
  else if area >. 50000 then objectTypes.LARGE
  else if area <. 5000 then objectTypes.SMALL
  else objectTypes.RECTANGULAR.

(** ** Confidence *)

(** The value of the local [confidence] when the [switch] is left. *)
Definition switchConfidence (objectType : string) (aspectRatio circularity extent : Q)
  : Q :=
  if String.eqb objectType objectTypes.HUMAN then
    (if (aspectRatio >=. 0.4) && (aspectRatio <=. 0.6) then 0.8 else 0.6)
  else if String.eqb objectType objectTypes.CIRCULAR then
    Js.Math_min 0.9 circularity
  else if String.eqb objectType objectTypes.SQUARE then
    1.0 - Js.Math_abs (aspectRatio - 1.0)
  else
    Js.Math_min 0.7 extent.

Definition calculateConfidence (objectType : string) (aspectRatio circularity extent : Q)
  : Q :=
  let confidence := switchConfidence objectType aspectRatio circularity extent in
  Js.Math_max 0.1 (Js.Math_min 0.9 confidence).

(** ** Overlap suppression, ranking and truncation *)

Definition calculateOverlap (rect1 rect2 : Rect.t) : Q :=
  let x1 := Z.max (Rect.x rect1) (Rect.x rect2) in
  let y1 := Z.max (Rect.y rect1) (Rect.y rect2) in
  let x2 := Z.min (Rect.x rect1 + Rect.width rect1) (Rect.x rect2 + Rect.width rect2) in
  let y2 := Z.min (Rect.y rect1 + Rect.height rect1) (Rect.y rect2 + Rect.height rect2) in
  if ((x2 <=? x1) || (y2 <=? y1))%Z then 0
  else
    let intersection := ((x2 - x1) * (y2 - y1))%Z in
    let area1 := (Rect.width rect1 * Rect.height rect1)%Z in
    let area2 := (Rect.width rect2 * Rect.height rect2)%Z in
    let union := (area1 + area2 - intersection)%Z in
    inject_Z intersection / inject_Z union.

Definition overlapThreshold : Q := 0.5.

(** The inner loop of [removeOverlappingDetections]: the value of [keep]
    once [filtered] has been scanned from its first element, stopping at the
    first overlap above the threshold. *)
Fixpoint keepAgainst (candidate : Detection.t) (filtered : list Detection.t) : bool :=
  match filtered with
  | [] => true
  | f :: rest =>
      if calculateOverlap (Detection.rect candidate) (Detection.rect f) >. overlapThreshold
      then false
      else keepAgainst candidate rest
  end.

(** The outer loop, started with the [filtered] array built so far. *)
Fixpoint removeOverlappingLoop (detections filtered : list Detection.t)
  : list Detection.t :=
  match detections with
  | [] => filtered
  | d :: rest =>
      if keepAgainst d filtered
      then removeOverlappingLoop rest (filtered ++ [d])
      else removeOverlappingLoop rest filtered
  end.

Definition removeOverlappingDetections (detections : list Detection.t)
  : list Detection.t :=
  removeOverlappingLoop detections [].

(** [Array.prototype.sort] with a comparison function: the sort is stable,
    and [compareFn a b > 0] puts [b] before [a].  It is written here as a
    stable insertion sort. *)
Fixpoint insertBy {A} (compareFn : A -> A -> Q) (a : A) (sorted : list A) : list A :=
  match sorted with
  | [] => [a]
  | b :: rest =>
      if compareFn a b >. 0 then b :: insertBy compareFn a rest
      else a :: sorted
  end.

Definition Array_sort {A} (compareFn : A -> A -> Q) (l : list A) : list A :=
  fold_right (insertBy compareFn) [] l.

(** The arrow function given to [sort]. *)
Definition byConfidence (a b : Detection.t) : Q :=
  Detection.confidence b - Detection.confidence a.

(** [postProcessDetections], as a function of [this.detectedObjects]. *)
Definition postProcess (detectedObjects : list Detection.t) : list Detection.t :=
  let detectedObjects := removeOverlappingDetections detectedObjects in
  let detectedObjects := Array_sort byConfidence detectedObjects in
  if (10 <? List.length detectedObjects)%nat
  then firstn 10 detectedObjects
  else detectedObjects.

(** ** Contours *)

(** A contour, as the class sees it: through [cv.contourArea],
    [cv.boundingRect] and [cv.arcLength(contour, true)]. *)
Module Contour.
Record t : Type := mk { contourArea : Q; boundingRect : Rect.t; arcLength : Q }.

(** What the geometry of a closed outline gives: a bounding rectangle with
    positive sides and a positive arc length.  On such contours the
    divisions of [detectionOf] below are the divisions of the source (a
    division by zero is 0 for the rationals, and is infinite or not a number
    in the source). *)
Definition wf (c : t) : Prop :=
  (0 < Rect.width (boundingRect c))%Z /\ (0 < Rect.height (boundingRect c))%Z
  /\ 0 < arcLength c.
End Contour.

(** The body of the loop of [analyzeContours] after the area filter: the
    detection object pushed for [contour]. *)
Definition detectionOf (contour : Contour.t) : Detection.t :=
  let area := Contour.contourArea contour in
  let rect := Contour.boundingRect contour in
  let aspectRatio := inject_Z (Rect.width rect) / inject_Z (Rect.height rect) in
  let extent := area / inject_Z (Rect.width rect * Rect.height rect) in
  let perimeter := Contour.arcLength contour in
  let circularity := 4 * Js.Math_PI * area / (perimeter * perimeter) in
  let objectType := classifyObject rect aspectRatio extent circularity area in
  {| Detection.type := objectType;
     Detection.rect := rect;
     Detection.area := area;
     Detection.aspectRatio := aspectRatio;
     Detection.circularity := circularity;
     Detection.extent := extent;
     Detection.confidence := calculateConfidence objectType aspectRatio circularity extent;
     Detection.center := (inject_Z (Rect.x rect) + inject_Z (Rect.width rect) / 2,
                          inject_Z (Rect.y rect) + inject_Z (Rect.height rect) / 2) |}.

(** The [for] loop of [analyzeContours]: [detectedObjects] after the
    contours have been visited in order. *)
Fixpoint analyzeLoop (contours : list Contour.t) (detectedObjects : list Detection.t)
  : list Detection.t :=
  match contours with
  | [] => detectedObjects
  | contour :: rest =>
      if Contour.contourArea contour <. minContourArea
      then analyzeLoop rest detectedObjects
      else analyzeLoop rest (detectedObjects ++ [detectionOf contour])
  end.

(** ** Thrown values and completions *)

Inductive exn : Type :=
| TypeError        (* a property of [null] is read *)
| RangeError       (* [TypedArray.prototype.set] with a source that does not fit *)
| IndexSizeError   (* [getImageData] with a zero width or height *)
| BindingError     (* an OpenCV.js object is used or deleted after [delete()] *)
| OtherError (name : string).

Inductive completion (A : Type) : Type :=
| Normal (a : A)
| Throw (e : exn).
Arguments Normal {A} a.
Arguments Throw {A} e.

(** ** The instance *)

(** [cv.Mat]: its shape, its [data] and whether [delete()] has been called. *)
Module Mat.
Record t : Type := mk {
  rows : nat; cols : nat; channels : nat;
  data : list Byte.byte;
  isDeleted : bool
}.
(** [new cv.Mat(rows, cols, type)]: one byte for each channel of each
    element. *)
Definition create (rows cols channels : nat) : t :=
  mk rows cols channels (repeat Byte.x00 (rows * cols * channels)) false.
(** [new cv.Mat()]. *)
Definition empty : t := create 0 0 0.
Definition with_data (m : t) (d : list Byte.byte) : t :=
  mk (rows m) (cols m) (channels m) d (isDeleted m).
Definition deleted (m : t) : t :=
  mk (rows m) (cols m) (channels m) (data m) true.
End Mat.

(** [cv.MatVector]: the contours it holds and whether it has been deleted. *)
Module MatVector.
Record t : Type := mk { items : list Contour.t; isDeleted : bool }.
Definition empty : t := mk [] false.
Definition with_items (v : t) (l : list Contour.t) : t := mk l (isDeleted v).
Definition deleted (v : t) : t := mk (items v) true.
End MatVector.

(** The fields of [this] that the methods assign. *)
Module ObjectDetector.
Record t : Type := mk {
  isInitialized : bool;
  detectedObjects : list Detection.t;
  src : option Mat.t;
  dst : option Mat.t;
  gray : option Mat.t;
  contours : option MatVector.t;
  hierarchy : option Mat.t
}.

(** The constructor. *)
Definition new : t := mk false [] None None None None None.

Definition set_isInitialized (b : bool) (o : t) : t :=
  mk b (detectedObjects o) (src o) (dst o) (gray o) (contours o) (hierarchy o).
Definition set_detectedObjects (l : list Detection.t) (o : t) : t :=
  mk (isInitialized o) l (src o) (dst o) (gray o) (contours o) (hierarchy o).
Definition set_src (m : option Mat.t) (o : t) : t :=
  mk (isInitialized o) (detectedObjects o) m (dst o) (gray o) (contours o) (hierarchy o).
Definition set_dst (m : option Mat.t) (o : t) : t :=
  mk (isInitialized o) (detectedObjects o) (src o) m (gray o) (contours o) (hierarchy o).
Definition set_gray (m : option Mat.t) (o : t) : t :=
  mk (isInitialized o) (detectedObjects o) (src o) (dst o) m (contours o) (hierarchy o).
Definition set_contours (v : option MatVector.t) (o : t) : t :=
  mk (isInitialized o) (detectedObjects o) (src o) (dst o) (gray o) v (hierarchy o).
Definition set_hierarchy (m : option Mat.t) (o : t) : t :=
  mk (isInitialized o) (detectedObjects o) (src o) (dst o) (gray o) (contours o) m.
End ObjectDetector.

(** ** Methods: a state and exception monad over [this] *)

Definition M (A : Type) : Type :=
  ObjectDetector.t -> completion A * ObjectDetector.t.

Definition ret {A} (a : A) : M A := fun this => (Normal a, this).

Definition throw {A} (e : exn) : M A := fun this => (Throw e, this).

Definition bind {A B} (m : M A) (k : A -> M B) : M B :=
  fun this =>
    match m this with
    | (Normal a, this') => k a this'
    | (Throw e, this') => (Throw e, this')
    end.

(** [try { body } catch (error) { handler }]. *)
Definition try_catch {A} (body : M A) (handler : exn -> M A) : M A :=
  fun this =>
    match body this with
    | (Normal a, this') => (Normal a, this')
    | (Throw e, this') => handler e this'
    end.

Definition get : M ObjectDetector.t := fun this => (Normal this, this).

Definition modify (f : ObjectDetector.t -> ObjectDetector.t) : M unit :=
  fun this => (Normal tt, f this).

(** The completion of a call into a collaborator. *)
Definition call {A} (c : completion A) : M A := fun this => (c, this).

Definition raise_if (fault : option exn) : M unit :=
  match fault with
  | Some e => throw e
  | None => ret tt
  end.

Declare Scope method_scope.
Delimit Scope method_scope with method.
Notation "x <- m ;; k" := (bind m (fun x => k))
  (at level 61, m at next level, right associativity) : method_scope.
Notation "m ;; k" := (bind m (fun _ => k))
  (at level 61, right associativity) : method_scope.
Open Scope method_scope.

(** Reading a field that holds an OpenCV.js object in order to use it:
    [null] has no properties, and a deleted object cannot be used. *)
Definition useMat (field : option Mat.t) : M Mat.t :=
  match field with
  | None => throw TypeError
  | Some m => if Mat.isDeleted m then throw BindingError else ret m
  end.

Definition useMatVector (field : option MatVector.t) : M MatVector.t :=
  match field with
  | None => throw TypeError
  | Some v => if MatVector.isDeleted v then throw BindingError else ret v
  end.

(** [m.delete()]: deleting twice is an error of the binding. *)
Definition Mat_delete (m : Mat.t) : M Mat.t :=
  if Mat.isDeleted m then throw BindingError else ret (Mat.deleted m).

Definition MatVector_delete (v : MatVector.t) : M MatVector.t :=
  if MatVector.isDeleted v then throw BindingError else ret (MatVector.deleted v).

(** ** The collaborators *)

Record Env : Type := mkEnv {
  (** [canvas.width], [canvas.height] *)
  canvas_width : nat;
  canvas_height : nat;
  (** the bytes of the current video frame, by index in the image data *)
  frame_byte : nat -> Byte.byte;
  (** [ctx.drawImage(video, ...)], by the number of the call in the frame *)
  ctx_drawImage : nat -> option exn;
  (** [ctx.getImageData] on a non-empty rectangle (security, memory) *)
  ctx_getImageData_fault : option exn;
  (** the constructors [new cv.Mat(...)], [new cv.MatVector()], by the
      number of the allocation in [initialize] *)
  cv_new_fault : nat -> option exn;
  (** the image functions: the new content of the destination *)
  cv_cvtColor : Mat.t -> completion (list Byte.byte);
  cv_GaussianBlur : Mat.t -> completion (list Byte.byte);
  cv_adaptiveThreshold : Mat.t -> completion (list Byte.byte);
  cv_morphologyEx : Mat.t -> completion (list Byte.byte);
  (** [cv.findContours] with [RETR_EXTERNAL]: the outer contours *)
  cv_findContours : Mat.t -> completion (list Contour.t);
  (** the canvas calls of [drawDetections] *)
  ctx_draw : list Detection.t -> option exn
}.

(** [ctx.getImageData(0, 0, sw, sh)]: a zero width or height is an
    [IndexSizeError]; otherwise four bytes for each pixel. *)
Definition ctx_getImageData (env : Env) (sw sh : nat) : M (list Byte.byte) :=
  if ((sw =? 0) || (sh =? 0))%nat then throw IndexSizeError
  else
    raise_if (ctx_getImageData_fault env) ;;
    ret (map (frame_byte env) (seq 0 (4 * sw * sh))).

(** [target.set(source)] of a typed array: a source longer than the target
    is a [RangeError]; otherwise the source overwrites the first elements. *)
Definition TypedArray_set (target source : list Byte.byte) : M (list Byte.byte) :=
  if (List.length target <? List.length source)%nat then throw RangeError
  else ret (source ++ skipn (List.length source) target).

(** ** The methods *)

(** [new cv.Mat(...)] as the [n]-th allocation of [initialize]. *)
Definition new_Mat (env : Env) (n : nat) (m : Mat.t) : M Mat.t :=
  raise_if (cv_new_fault env n) ;; ret m.

Definition new_MatVector (env : Env) (n : nat) : M MatVector.t :=
  raise_if (cv_new_fault env n) ;; ret MatVector.empty.

Definition initialize (env : Env) (videoWidth videoHeight : nat) : M bool :=
  try_catch
    (m <- new_Mat env 0 (Mat.create videoHeight videoWidth 4) ;;
     modify (ObjectDetector.set_src (Some m)) ;;
     m <- new_Mat env 1 (Mat.create videoHeight videoWidth 1) ;;
     modify (ObjectDetector.set_dst (Some m)) ;;
     m <- new_Mat env 2 Mat.empty ;;
     modify (ObjectDetector.set_gray (Some m)) ;;
     v <- new_MatVector env 3 ;;
     modify (ObjectDetector.set_contours (Some v)) ;;
     m <- new_Mat env 4 Mat.empty ;;
     modify (ObjectDetector.set_hierarchy (Some m)) ;;
     modify (ObjectDetector.set_isInitialized true) ;;
     ret true)
    (fun error => ret false).

Definition preprocessImage (env : Env) : M unit :=
  this <- get ;;
  gray <- useMat (ObjectDetector.gray this) ;;
  blurred <- call (cv_GaussianBlur env gray) ;;
  modify (ObjectDetector.set_gray (Some (Mat.with_data gray blurred))) ;;
  this <- get ;;
  gray <- useMat (ObjectDetector.gray this) ;;
  dst <- useMat (ObjectDetector.dst this) ;;
  mask <- call (cv_adaptiveThreshold env gray) ;;
  modify (ObjectDetector.set_dst (Some (Mat.with_data dst mask))) ;;
  this <- get ;;
  dst <- useMat (ObjectDetector.dst this) ;;
  closed <- call (cv_morphologyEx env dst) ;;
  modify (ObjectDetector.set_dst (Some (Mat.with_data dst closed))).

Definition postProcessDetections : M unit :=
  modify (fun this =>
    ObjectDetector.set_detectedObjects
      (postProcess (ObjectDetector.detectedObjects this)) this).

Definition analyzeContours : M unit :=
  this <- get ;;
  contours <- useMatVector (ObjectDetector.contours this) ;;
  modify (fun this =>
    ObjectDetector.set_detectedObjects
      (analyzeLoop (MatVector.items contours) (ObjectDetector.detectedObjects this))
      this) ;;
  postProcessDetections.

Definition drawDetections (env : Env) : M unit :=
  this <- get ;;
  raise_if (ctx_draw env (ObjectDetector.detectedObjects this)).

(** The statements under "Capture current frame" in [processFrame]. *)
Definition captureCurrentFrame (env : Env) : M unit :=
  raise_if (ctx_drawImage env 0%nat) ;;
  imageData <- ctx_getImageData env (canvas_width env) (canvas_height env) ;;
  this <- get ;;
  src <- useMat (ObjectDetector.src this) ;;
  data <- TypedArray_set (Mat.data src) imageData ;;
  modify (ObjectDetector.set_src (Some (Mat.with_data src data))).

(** [cv.cvtColor(this.src, this.gray, cv.COLOR_RGBA2GRAY)]. *)
Definition cvtColor (env : Env) : M unit :=
  this <- get ;;
  src <- useMat (ObjectDetector.src this) ;;
  gray <- useMat (ObjectDetector.gray this) ;;
  grayData <- call (cv_cvtColor env src) ;;
  modify (ObjectDetector.set_gray (Some (Mat.with_data gray grayData))).

(** [cv.findContours(this.dst, this.contours, this.hierarchy, ...)]. *)
Definition findContours (env : Env) : M unit :=
  this <- get ;;
  dst <- useMat (ObjectDetector.dst this) ;;
  contours <- useMatVector (ObjectDetector.contours this) ;;
  _ <- useMat (ObjectDetector.hierarchy this) ;;
  found <- call (cv_findContours env dst) ;;
  modify (ObjectDetector.set_contours (Some (MatVector.with_items contours found))).

(** The block guarded by [try] in [processFrame]. *)
Definition processFrame_try (env : Env) : M (list Detection.t) :=
  modify (ObjectDetector.set_detectedObjects []) ;;
  captureCurrentFrame env ;;
  cvtColor env ;;
  preprocessImage env ;;
  findContours env ;;
  raise_if (ctx_drawImage env 1%nat) ;;
  analyzeContours ;;
  drawDetections env ;;
  this <- get ;;
  ret (ObjectDetector.detectedObjects this).

Definition processFrame (env : Env) : M (list Detection.t) :=
  this <- get ;;
  if negb (ObjectDetector.isInitialized this) then ret []
  else try_catch (processFrame_try env) (fun error => ret []).

(** [if (this.f) this.f.delete();] for a field holding a matrix: any object
    is truthy, deleted or not, and the field keeps its value. *)
Definition deleteMatField (field : option Mat.t)
    (set : option Mat.t -> ObjectDetector.t -> ObjectDetector.t) : M unit :=
  match field with
  | None => ret tt
  | Some m => m' <- Mat_delete m ;; modify (set (Some m'))
  end.

Definition deleteMatVectorField (field : option MatVector.t)
    (set : option MatVector.t -> ObjectDetector.t -> ObjectDetector.t) : M unit :=
  match field with
  | None => ret tt
  | Some v => v' <- MatVector_delete v ;; modify (set (Some v'))
  end.

Definition cleanup : M unit :=
  this <- get ;;
  deleteMatField (ObjectDetector.src this) ObjectDetector.set_src ;;
  deleteMatField (ObjectDetector.dst this) ObjectDetector.set_dst ;;
  deleteMatField (ObjectDetector.gray this) ObjectDetector.set_gray ;;
  deleteMatVectorField (ObjectDetector.contours this) ObjectDetector.set_contours ;;
  deleteMatField (ObjectDetector.hierarchy this) ObjectDetector.set_hierarchy ;;
  modify (ObjectDetector.set_isInitialized false).

(** ** The documented behaviour, for comparison with the methods *)

(** The descriptors of a shape, as the classifier receives them. *)
Module Shape.
Record t : Type := mk {
  rect : Rect.t; aspectRatio : Q; extent : Q; circularity : Q; area : Q
}.
End Shape.

(** [v] lies in the closed interval from [lo] to [hi]. *)
Definition within (lo hi v : Q) : bool := (lo <=. v) && (v <=. hi).

(** The person predicate of the rule chain. *)
Definition personRule (s : Shape.t) : bool :=
  within 0.3 0.8 (Shape.aspectRatio s)
  && within 10000 200000 (Shape.area s)
  && (100 <=? Rect.height (Shape.rect s))%Z.

(** The rule chain as an ordered table of predicates and labels. *)
Definition ruleChain : list ((Shape.t -> bool) * string) :=
  [ (personRule, objectTypes.HUMAN);
    ((fun s => Shape.circularity s >. 0.7), objectTypes.CIRCULAR);
    ((fun s => within 0.8 1.2 (Shape.aspectRatio s)), objectTypes.SQUARE);
    ((fun s => Shape.aspectRatio s >. 1.5), objectTypes.HORIZONTAL);
    ((fun s => Shape.aspectRatio s <. 0.67), objectTypes.VERTICAL);
    ((fun s => Shape.area s >. 50000), objectTypes.LARGE);
    ((fun s => Shape.area s <. 5000), objectTypes.SMALL) ].

(** First match wins; [fallback] when no rule matches. *)
Fixpoint firstMatch (rules : list ((Shape.t -> bool) * string)) (fallback : string)
    (s : Shape.t) : string :=
  match rules with
  | [] => fallback
  | (applies, label) :: rest =>
      if applies s then label else firstMatch rest fallback s
  end.

Definition classifyByRules (s : Shape.t) : string :=
  firstMatch ruleChain objectTypes.RECTANGULAR s.

(** The descriptors [analyzeContours] computes for a contour. *)
Definition shapeOf (contour : Contour.t) : Shape.t :=
  let d := detectionOf contour in
  Shape.mk (Detection.rect d) (Detection.aspectRatio d) (Detection.extent d)
           (Detection.circularity d) (Detection.area d).

(** The area filter: the contour is kept. *)
Definition passesAreaFilter (contour : Contour.t) : bool :=
  1500 <=. Contour.contourArea contour.

(** The raw score of the scorer, label by label. *)
Definition rawScore (label : string) (aspectRatio circularity extent : Q) : Q :=
  if String.eqb label objectTypes.HUMAN then
    (if within 0.4 0.6 aspectRatio then 0.8 else 0.6)
  else if String.eqb label objectTypes.CIRCULAR then Qmin 0.9 circularity
  else if String.eqb label objectTypes.SQUARE then 1.0 - Qabs (aspectRatio - 1.0)
  else Qmin 0.7 extent.

Definition clamp (lo hi v : Q) : Q := Qmax lo (Qmin hi v).

(** Intersection over union of two boxes: the sides of the intersection are
    the overlaps of the two projections, empty when the boxes are apart. *)
Definition overlapLength (a wa b wb : Z) : Z :=
  Z.max 0 (Z.min (a + wa) (b + wb) - Z.max a b).

Definition intersectionArea (r1 r2 : Rect.t) : Z :=
  (overlapLength (Rect.x r1) (Rect.width r1) (Rect.x r2) (Rect.width r2)
   * overlapLength (Rect.y r1) (Rect.height r1) (Rect.y r2) (Rect.height r2))%Z.

Definition boxArea (r : Rect.t) : Z := (Rect.width r * Rect.height r)%Z.

Definition IoU (r1 r2 : Rect.t) : Q :=
  if (intersectionArea r1 r2 =? 0)%Z then 0
  else inject_Z (intersectionArea r1 r2)
       / inject_Z (boxArea r1 + boxArea r2 - intersectionArea r1 r2).

(** Some accepted detection overlaps the candidate by more than the
    threshold. *)
Definition suppressedBy (candidate : Detection.t) (accepted : list Detection.t) : bool :=
  existsb (fun a => IoU (Detection.rect candidate) (Detection.rect a) >. 0.5) accepted.

(** Descending confidence. *)
Definition confidenceGe (a b : Detection.t) : Prop :=
  Detection.confidence b <= Detection.confidence a.

(** The frame does not have the working size given to [initialize]. *)
Definition frameMismatch (env : Env) (videoWidth videoHeight : nat) : Prop :=
  canvas_width env = 0%nat \/ canvas_height env = 0%nat
  \/ canvas_width env <> videoWidth \/ canvas_height env <> videoHeight.

(** Failing fast on such a frame: the guarded block of [processFrame] stops
    with a thrown value instead of producing detections. *)
Definition failsFastOnInvalidFrame : Prop :=
  forall env videoWidth videoHeight this,
    initialize env videoWidth videoHeight ObjectDetector.new = (Normal true, this) ->
    frameMismatch env videoWidth videoHeight ->
    exists e this', processFrame_try env this = (Throw e, this').

(** ** Concrete frames *)

(** A standing figure: area 15000 in a 100 by 250 box. *)
Definition figureContour : Contour.t :=
  Contour.mk 15000 (Rect.mk 40 100 100 250) 700.

(** A disc: area 60000 in a 280 by 280 box, arc length 942. *)
Definition discContour : Contour.t :=
  Contour.mk 60000 (Rect.mk 300 60 280 280) 942.

(** Noise: one unit of area under the filter. *)
Definition speckContour : Contour.t :=
  Contour.mk 1499 (Rect.mk 10 400 40 40) 160.

Definition sceneContours : list Contour.t :=
  [speckContour; discContour; figureContour].

(** Collaborators for a canvas of [w] by [h] pixels: nothing throws, except
    the drawing of the detections when [drawFault] says so, and the contour
    finder reports [sceneContours]. *)
Definition sceneEnvWith (drawFault : option exn) (w h : nat) : Env :=
  {| canvas_width := w;
     canvas_height := h;
     frame_byte := fun _ => Byte.x80;
     ctx_drawImage := fun _ => None;
     ctx_getImageData_fault := None;
     cv_new_fault := fun _ => None;
     cv_cvtColor := fun m => Normal (firstn (Mat.rows m * Mat.cols m) (Mat.data m));
     cv_GaussianBlur := fun m => Normal (Mat.data m);
     cv_adaptiveThreshold := fun m => Normal (Mat.data m);
     cv_morphologyEx := fun m => Normal (Mat.data m);
     cv_findContours := fun _ => Normal sceneContours;
     ctx_draw := fun _ => drawFault |}.

Definition sceneEnv : nat -> nat -> Env := sceneEnvWith None.

(** A canvas that fails while the detections are drawn. *)
Definition brokenCanvasEnv : nat -> nat -> Env :=
  sceneEnvWith (Some (OtherError "InvalidStateError")).

(** The instance after [initialize(640, 480)] on a new detector. *)
Definition detector640x480 : ObjectDetector.t :=
  snd (initialize (sceneEnv 640 480) 640 480 ObjectDetector.new).

(** Two boxes whose intersection over union is exactly one half, and two
    whose intersection over union is 0.51. *)
Definition boxDetection (r : Rect.t) (confidence : Q) : Detection.t :=
  Detection.mk objectTypes.RECTANGULAR r 0 0 0 0 confidence (0, 0).

Definition fullBox : Detection.t := boxDetection (Rect.mk 0 0 100 100) 0.3.
Definition halfBox : Detection.t := boxDetection (Rect.mk 0 0 100 50) 0.7.
Definition box51 : Detection.t := boxDetection (Rect.mk 0 0 100 51) 0.7.

(** The confidence of a detection lies in the closed interval from 0.1 to
    0.9. *)
Definition confidenceInRange (d : Detection.t) : Prop :=
  0.1 <= Detection.confidence d <= 0.9.

(** The bytes [getImageData] returns for the canvas of [env]. *)
Definition frameBytes (env : Env) : list Byte.byte :=
  map (frame_byte env) (seq 0 (4 * canvas_width env * canvas_height env)).

(** The instance once the guarded block of [processFrame] has cleared the
    detections and [src] holds the current frame. *)
Definition afterCapture (env : Env) (src : Mat.t) (this : ObjectDetector.t)
  : ObjectDetector.t :=
  ObjectDetector.set_src
    (Some (Mat.with_data src
             (frameBytes env ++ skipn (List.length (frameBytes env)) (Mat.data src))))
    (ObjectDetector.set_detectedObjects [] this).

(** The area of a detection is at least the minimum contour area. *)
Definition areaAtLeastMin (d : Detection.t) : Prop := 1500 <= Detection.area d.

(** ** Frame conditions *)

(** A method that leaves [this.detectedObjects] as it found it, however it
    completes. *)
Definition keepsDetections {A} (m : M A) : Prop :=
  forall this c this',
    m this = (c, this') ->
    ObjectDetector.detectedObjects this' = ObjectDetector.detectedObjects this.

(** A method that never completes by throwing. *)
Definition neverThrows {A} (m : M A) : Prop :=
  forall this, exists a this', m this = (Normal a, this').

(** ** Further notions used in the properties *)

(** The labels [classifyObject] has a [return] for. *)
Definition classifierLabels : list string :=
  [ objectTypes.HUMAN; objectTypes.CIRCULAR; objectTypes.SQUARE;
    objectTypes.HORIZONTAL; objectTypes.VERTICAL; objectTypes.LARGE;
    objectTypes.SMALL; objectTypes.RECTANGULAR ].

Definition hasClassifierLabel (d : Detection.t) : Prop :=
  In (Detection.type d) classifierLabels.

(** The later of two detections does not overlap the earlier one by more
    than the threshold of [removeOverlappingDetections]. *)
Definition apart (earlier later : Detection.t) : Prop :=
  calculateOverlap (Detection.rect later) (Detection.rect earlier) <= overlapThreshold.

(** The detections of a given confidence. *)
Definition hasConfidence (c : Q) (d : Detection.t) : bool :=
  Qeq_bool (Detection.confidence d) c.

(** A method that leaves a part of the instance, given by [proj], as it
    found it, however it completes. *)
Definition keeps {A X} (proj : ObjectDetector.t -> X) (m : M A) : Prop :=
  forall this c this', m this = (c, this') -> proj this' = proj this.

(** What a matrix is apart from its content: its shape, the number of bytes
    it holds and whether it has been deleted. *)
Definition matShape (m : Mat.t) : nat * nat * nat * nat * bool :=
  (Mat.rows m, Mat.cols m, Mat.channels m, List.length (Mat.data m), Mat.isDeleted m).

Definition srcShape (this : ObjectDetector.t) : option (nat * nat * nat * nat * bool) :=
  option_map matShape (ObjectDetector.src this).

(** The field is [null] or holds an object that has not been deleted. *)
Definition matUsable (field : option Mat.t) : bool :=
  match field with
  | None => true
  | Some m => negb (Mat.isDeleted m)
  end.

Definition matVectorUsable (field : option MatVector.t) : bool :=
  match field with
  | None => true
  | Some v => negb (MatVector.isDeleted v)
  end.

Definition buffersUsable (this : ObjectDetector.t) : bool :=
  matUsable (ObjectDetector.src this)
  && matUsable (ObjectDetector.dst this)
  && matUsable (ObjectDetector.gray this)
  && matVectorUsable (ObjectDetector.contours this)
  && matUsable (ObjectDetector.hierarchy this).

(** The instance with every buffer it refers to deleted and the flag reset;
    the detections stay. *)
Definition released (this : ObjectDetector.t) : ObjectDetector.t :=
  ObjectDetector.mk false (ObjectDetector.detectedObjects this)
    (option_map Mat.deleted (ObjectDetector.src this))
    (option_map Mat.deleted (ObjectDetector.dst this))
    (option_map Mat.deleted (ObjectDetector.gray this))
    (option_map MatVector.deleted (ObjectDetector.contours this))
    (option_map Mat.deleted (ObjectDetector.hierarchy this)).

(** The instance a successful [initialize] leaves: new buffers for the given
    size, the flag set, the detections as they were. *)
Definition initialized (videoWidth videoHeight : nat) (this : ObjectDetector.t)
  : ObjectDetector.t :=
  ObjectDetector.mk true (ObjectDetector.detectedObjects this)
    (Some (Mat.create videoHeight videoWidth 4))
    (Some (Mat.create videoHeight videoWidth 1))
    (Some Mat.empty) (Some MatVector.empty) (Some Mat.empty).

(** No constructor call of [initialize] throws. *)
Definition allocationsSucceed (env : Env) : bool :=
  forallb (fun n => match cv_new_fault env n with None => true | Some _ => false end)
          (seq 0 5).

(** The part of the instance no stage of a frame may change: the flag and
    the shape of the source buffer. *)
Definition flagAndSrcShape (this : ObjectDetector.t) :=
  (ObjectDetector.isInitialized this, srcShape this).

(** ** The summary and the description of the scene *)

(** The entry [getDetectionSummary] keeps for a label. *)
Module TypeSummary.
Record t : Type := mk { count : nat; avgConfidence : Q; totalConfidence : Q }.
End TypeSummary.

(** The object [summary]: a plain object used as a map from labels to
    entries.  Its own keys are kept in the order of their insertion, which is
    the order [Object.keys] returns.  The keys are labels of [objectTypes],
    none of which names a property that a plain object inherits. *)
Definition Summary : Type := list (string * TypeSummary.t).

(** [summary[type]] *)
Fixpoint summary_get (summary : Summary) (type : string) : option TypeSummary.t :=
  match summary with
  | [] => None
  | (key, entry) :: rest =>
      if String.eqb key type then Some entry else summary_get rest type
  end.

(** [summary[type] = entry]: an existing key keeps its place, a new key
    comes last. *)
Fixpoint summary_set (summary : Summary) (type : string) (entry : TypeSummary.t)
  : Summary :=
  match summary with
  | [] => [(type, entry)]
  | (key, old) :: rest =>
      if String.eqb key type then (key, entry) :: rest
      else (key, old) :: summary_set rest type entry
  end.

(** [Object.keys(summary)] *)
Definition summary_keys (summary : Summary) : list string := map fst summary.

(** The callback of the first [forEach] of [getDetectionSummary], on the
    pair of [summary] and [totalConfidence]. *)
Definition countDetection (acc : Summary * Q) (detection : Detection.t) : Summary * Q :=
  let (summary, totalConfidence) := acc in
  let summary :=
    match summary_get summary (Detection.type detection) with
    | None => summary_set summary (Detection.type detection) (TypeSummary.mk 0 0 0)
    | Some _ => summary
    end in
  let summary :=
    match summary_get summary (Detection.type detection) with
    | Some entry =>
        summary_set summary (Detection.type detection)
          (TypeSummary.mk (S (TypeSummary.count entry))
             (TypeSummary.avgConfidence entry)
             (TypeSummary.totalConfidence entry + Detection.confidence detection))
    | None => summary
    end in
  (summary, totalConfidence + Detection.confidence detection).

Definition Number_of_nat (n : nat) : Q := inject_Z (Z.of_nat n).

(** The callback of the second [forEach]. *)
Definition averageType (summary : Summary) (type : string) : Summary :=
  match summary_get summary type with
  | Some entry =>
      summary_set summary type
        (TypeSummary.mk (TypeSummary.count entry)
           (TypeSummary.totalConfidence entry / Number_of_nat (TypeSummary.count entry))
           (TypeSummary.totalConfidence entry))
  | None => summary
  end.

Module DetectionSummary.
Record t : Type := mk { types : Summary; totalObjects : nat; avgConfidence : Q }.
End DetectionSummary.

(** [getDetectionSummary], as a function of [this.detectedObjects]. *)
Definition getDetectionSummary (detectedObjects : list Detection.t)
  : DetectionSummary.t :=
  let (summary, totalConfidence) := fold_left countDetection detectedObjects ([], 0) in
  let summary := fold_left averageType (summary_keys summary) summary in
  DetectionSummary.mk summary (List.length detectedObjects)
    (if (0 <? List.length detectedObjects)%nat
     then totalConfidence / Number_of_nat (List.length detectedObjects)
     else 0).

(** A template literal's rendering of a count. *)
Definition Number_toString (n : nat) : string :=
  NilEmpty.string_of_uint (Nat.to_uint n).

(** [Array.prototype.join] *)
Definition Array_join (separator : string) (l : list string) : string :=
  String.concat separator l.

(** The arrow function mapped over the other labels. *)
Definition describeType (summary : DetectionSummary.t) (type : string) : string :=
  let count :=
    match summary_get (DetectionSummary.types summary) type with
    | Some entry => TypeSummary.count entry
    | None => 0%nat
    end in
  if (count =? 1)%nat then ("a " ++ type)%string
  else (Number_toString count ++ " " ++ type ++ "s")%string.

(** The value of the local [description] of [generateSceneDescription] when
    the last [return] is reached. *)
Definition sceneDescriptionText (detectedObjects : list Detection.t) : string :=
  let summary := getDetectionSummary detectedObjects in
  let types := summary_keys (DetectionSummary.types summary) in
  let description := EmptyString in
  let description :=
    match summary_get (DetectionSummary.types summary) objectTypes.HUMAN with
    | Some entry =>
        let count := TypeSummary.count entry in
        (description
         ++ (if (count =? 1)%nat then "a person"
             else Number_toString count ++ " people"))%string
    | None => description
    end in
  let otherTypes :=
    filter (fun type => negb (String.eqb type objectTypes.HUMAN)) types in
  let description :=
    if (0 <? List.length otherTypes)%nat && negb (String.eqb description "")
    then (description ++ " with ")%string
    else description in
  let description :=
    if (0 <? List.length otherTypes)%nat
    then (description
          ++ Array_join ", " (map (describeType summary) (firstn 3 otherTypes)))%string
    else description in
  description.

Definition generateSceneDescription (detectedObjects : list Detection.t) : string :=
  if (List.length detectedObjects =? 0)%nat then "a general scene"%string
  else
    let description := sceneDescriptionText detectedObjects in
    if String.eqb description "" then "various objects"%string else description.

(** The values of [this.objectTypes]. *)
Definition allLabels : list string :=
  objectTypes.FACE :: objectTypes.UNKNOWN :: classifierLabels.

Definition hasLabel (d : Detection.t) : Prop := In (Detection.type d) allLabels.

(** The detections of a label, and sums of numbers. *)
Definition ofType (type : string) (d : Detection.t) : bool :=
  String.eqb (Detection.type d) type.

Definition Qsum (l : list Q) : Q := fold_right Qplus 0 l.

Definition countOf (type : string) (detections : list Detection.t) : nat :=
  List.length (filter (ofType type) detections).

Definition totalOf (type : string) (detections : list Detection.t) : Q :=
  Qsum (map Detection.confidence (filter (ofType type) detections)).

(** The counts of all the entries of a summary, added up. *)
Definition countSum (summary : Summary) : nat :=
  list_sum (map (fun kv => TypeSummary.count (snd kv)) summary).

(** The entry under a key, or the entry a new key starts from. *)
Definition entryOrNew (o : option TypeSummary.t) : TypeSummary.t :=
  match o with
  | Some entry => entry
  | None => TypeSummary.mk 0 0 0
  end.

(** An entry with its average filled in. *)
Definition averaged (entry : TypeSummary.t) : TypeSummary.t :=
  TypeSummary.mk (TypeSummary.count entry)
    (TypeSummary.totalConfidence entry / Number_of_nat (TypeSummary.count entry))
    (TypeSummary.totalConfidence entry).

(** What the first loop of [getDetectionSummary] has built once it has
    visited [visited]. *)
Definition countedSoFar (acc : Summary * Q) (visited : list Detection.t) : Prop :=
  NoDup (summary_keys (fst acc))
  /\ (forall type,
      match summary_get (fst acc) type with
      | Some entry =>
          TypeSummary.count entry = countOf type visited
          /\ (1 <= TypeSummary.count entry)%nat
          /\ TypeSummary.totalConfidence entry == totalOf type visited
      | None => countOf type visited = 0%nat
      end)
  /\ countSum (fst acc) = List.length visited
  /\ snd acc == Qsum (map Detection.confidence visited).

(** A text whose first characters already tell it apart from the empty
    text, from "a general scene" and from "various objects": it does not
    start with [v], and if it starts with [a], it goes on with something
    other than a space and [g]. *)
Definition distinctiveStart (s : string) : bool :=
  match s with
  | EmptyString => false
  | String c1 rest =>
      if Ascii.eqb c1 "v"%char then false
      else if Ascii.eqb c1 "a"%char then
        match rest with
        | String c2 rest2 =>
            if Ascii.eqb c2 " "%char then
              match rest2 with
              | String c3 _ => negb (Ascii.eqb c3 "g"%char)
              | EmptyString => false
              end
            else true
        | EmptyString => false
        end
      else true
  end.

(** The words for the persons of a scene. *)
Definition personPhrase (count : nat) : string :=
  if (count =? 1)%nat then "a person"%string
  else (Number_toString count ++ " people")%string.

(** ** Drawing a detection *)

(** [this.objectColors], an object keyed by the labels. *)
Definition objectColors : list (string * string) :=
  [ (objectTypes.HUMAN, "#ff6b6b"%string);
    (objectTypes.FACE, "#4ecdc4"%string);
    (objectTypes.RECTANGULAR, "#45b7d1"%string);
    (objectTypes.CIRCULAR, "#96ceb4"%string);
    (objectTypes.SQUARE, "#feca57"%string);
    (objectTypes.VERTICAL, "#ff9ff3"%string);
    (objectTypes.HORIZONTAL, "#54a0ff"%string);
    (objectTypes.SMALL, "#5f27cd"%string);
    (objectTypes.LARGE, "#00d2d3"%string);
    (objectTypes.UNKNOWN, "#ffffff"%string) ].

(** [this.objectColors[type]] *)
Fixpoint objectColors_get (colors : list (string * string)) (type : string)
  : option string :=
  match colors with
  | [] => None
  | (key, color) :: rest =>
      if String.eqb key type then Some color else objectColors_get rest type
  end.

(** The [color] of [drawDetections]: the colour of the label, or the colour
    of the unknown label when the lookup gives nothing (or an empty text). *)
Definition detectionColor (detection : Detection.t) : string :=
  match objectColors_get objectColors (Detection.type detection) with
  | Some color => if String.eqb color "" then "#ffffff"%string else color
  | None => "#ffffff"%string
  end.

(** [Math.round]: the nearest integer, halves upwards. *)
Definition Math_round (x : Q) : Z := Qfloor (x + (1 # 2)).

(** The percentage written in the label of a box. *)
Definition labelPercent (detection : Detection.t) : Z :=
  Math_round (Detection.confidence detection * 100).

(** ** The swipe of the review screen (the touch handlers of the
    application) *)

(** [this.touch] *)
Module Touch.
Record t : Type := mk { startX : Q; currentX : Q; isDragging : bool }.
End Touch.

(** The touch state with the horizontal translation of the image slider, in
    percent. *)
Module Review.
Record t : Type := mk { touch : Touch.t; translateX : Q }.
(** The state the constructor and the style sheet give. *)
Definition initial : t := mk (Touch.mk 0 0 false) 0.
End Review.

(** The two calls of [saveImage] in the [touchend] handler. *)
Inductive saved : Type := SaveOriginal | SaveEnhanced.

(** The [touchstart] handler, for a touch at [clientX]. *)
Definition touchstart (clientX : Q) (s : Review.t) : Review.t :=
  Review.mk (Touch.mk clientX (Touch.currentX (Review.touch s)) true)
            (Review.translateX s).

(** The [touchmove] handler, for a touch at [clientX] in a window of width
    [innerWidth]. *)
Definition touchmove (clientX innerWidth : Q) (s : Review.t) : Review.t :=
  if negb (Touch.isDragging (Review.touch s)) then s
  else
    let currentX := clientX in
    let deltaX := currentX - Touch.startX (Review.touch s) in
    let translateX :=
      Js.Math_max (-50) (Js.Math_min 0 ((deltaX / innerWidth) * 100)) in
    Review.mk (Touch.mk (Touch.startX (Review.touch s)) currentX true) translateX.

(** The [touchend] handler: the state it leaves and the image it saves. *)
Definition touchend (innerWidth : Q) (s : Review.t) : Review.t * option saved :=
  if negb (Touch.isDragging (Review.touch s)) then (s, None)
  else
    let deltaX := Touch.currentX (Review.touch s) - Touch.startX (Review.touch s) in
    let threshold := innerWidth * 0.3 in
    let action :=
      if Js.Math_abs deltaX >. threshold
      then (if deltaX >. 0 then Some SaveOriginal else Some SaveEnhanced)
      else None in
    (Review.mk (Touch.mk (Touch.startX (Review.touch s))
                         (Touch.currentX (Review.touch s)) false) 0,
     action).

(** * Properties *)

(** ** The scene, evaluated *)

Example scene_frame :
  fst (processFrame (sceneEnv 640 480) detector640x480)
  = Normal [detectionOf discContour; detectionOf figureContour].
Proof. vm_compute. reflexivity. Qed.

Example figure_is_a_person :
  Detection.type (detectionOf figureContour) = objectTypes.HUMAN
  /\ Detection.aspectRatio (detectionOf figureContour) == 0.4
  /\ Detection.confidence (detectionOf figureContour) == 0.8.
Proof. repeat split. Qed.

Example disc_is_circular :
  Detection.type (detectionOf discContour) = objectTypes.CIRCULAR
  /\ 0.84 < Detection.confidence (detectionOf discContour) < 0.85.
Proof. repeat split. Qed.

Example boxes_overlapping_by_less_than_half :
  calculateOverlap (Rect.mk 100 100 50 50) (Rect.mk 110 110 50 50) == 1600 # 3400
  /\ removeOverlappingDetections
       [boxDetection (Rect.mk 100 100 50 50) 0.5;
        boxDetection (Rect.mk 110 110 50 50) 0.5]
     = [boxDetection (Rect.mk 100 100 50 50) 0.5;
        boxDetection (Rect.mk 110 110 50 50) 0.5].
Proof. repeat split. Qed.

(** ** Comparisons *)

Section Comparisons.
Variables a b : Q.

Lemma lt_true : (a <. b) = true <-> a < b.
Proof.
  unfold Js.lt. rewrite negb_true_iff, <- not_true_iff_false, Qle_bool_iff.
  split; [apply Qnot_le_lt | apply Qlt_not_le].
Qed.

Lemma lt_false : (a <. b) = false <-> b <= a.
Proof.
  unfold Js.lt. rewrite negb_false_iff. apply Qle_bool_iff.
Qed.

Lemma gt_true : (a >. b) = true <-> b < a.
Proof.
  unfold Js.gt, Js.lt. rewrite negb_true_iff, <- not_true_iff_false, Qle_bool_iff.
  split; [apply Qnot_le_lt | apply Qlt_not_le].
Qed.

Lemma gt_false : (a >. b) = false <-> a <= b.
Proof.
  unfold Js.gt, Js.lt. rewrite negb_false_iff. apply Qle_bool_iff.
Qed.

Lemma le_true : (a <=. b) = true <-> a <= b.
Proof. apply Qle_bool_iff. Qed.

Lemma ge_true : (a >=. b) = true <-> b <= a.
Proof. apply Qle_bool_iff. Qed.

Lemma ge_le : (a >=. b) = (b <=. a).
Proof. reflexivity. Qed.

Lemma lt_negb_ge : (a <. b) = negb (b <=. a).
Proof. reflexivity. Qed.

Lemma gt_negb_le : (a >. b) = negb (a <=. b).
Proof. reflexivity. Qed.

End Comparisons.

Lemma within_true (lo hi v : Q) : within lo hi v = true <-> lo <= v <= hi.
Proof.
  unfold within. rewrite andb_true_iff, !le_true. tauto.
Qed.

(** ** The classifier *)

Lemma personRule_true (s : Shape.t) :
  personRule s = true <->
  0.3 <= Shape.aspectRatio s <= 0.8
  /\ 10000 <= Shape.area s <= 200000
  /\ (100 <= Rect.height (Shape.rect s))%Z.
Proof.
  unfold personRule. rewrite !andb_true_iff, !within_true, Z.leb_le. tauto.
Qed.

Lemma isLikelyHuman_personRule (rect : Rect.t) (aspectRatio extent circularity area : Q) :
  isLikelyHuman rect aspectRatio area
  = personRule (Shape.mk rect aspectRatio extent circularity area).
Proof.
  unfold isLikelyHuman, personRule, within, humanAspectRatioMin, humanAspectRatioMax.
  cbn [Shape.aspectRatio Shape.area Shape.rect].
  rewrite !lt_negb_ge, !gt_negb_le, Z.ltb_antisym.
  destruct (0.3 <=. aspectRatio), (aspectRatio <=. 0.8),
    (10000 <=. area), (area <=. 200000), (100 <=? Rect.height rect)%Z;
    reflexivity.
Qed.

(** C1. For every shape the classifier returns the label of the first rule
    of the chain person, circular, square, horizontal, vertical, large,
    small that applies, and the rectangular label when none does; the label
    of the detection built for a contour is obtained this way; the person
    rule is the conjunction of the three documented bounds; and a shape that
    satisfies the person rule and has circularity above 0.7 is a person. *)
Theorem classifyObject_first_match :
  (forall rect aspectRatio extent circularity area,
      classifyObject rect aspectRatio extent circularity area
      = classifyByRules (Shape.mk rect aspectRatio extent circularity area))
  /\ (forall contour,
      Detection.type (detectionOf contour) = classifyByRules (shapeOf contour))
  /\ (forall s,
      personRule s = true <->
      0.3 <= Shape.aspectRatio s <= 0.8
      /\ 10000 <= Shape.area s <= 200000
      /\ (100 <= Rect.height (Shape.rect s))%Z)
  /\ (forall rect aspectRatio extent circularity area,
      0.3 <= aspectRatio <= 0.8 ->
      10000 <= area <= 200000 ->
      (100 <= Rect.height rect)%Z ->
      0.7 < circularity ->
      classifyObject rect aspectRatio extent circularity area = objectTypes.HUMAN).
Proof.
  assert (E : forall rect aspectRatio extent circularity area,
      classifyObject rect aspectRatio extent circularity area
      = classifyByRules (Shape.mk rect aspectRatio extent circularity area)).
  { intros. unfold classifyObject, classifyByRules, ruleChain, firstMatch.
    rewrite (isLikelyHuman_personRule rect aspectRatio extent circularity area).
    cbn [Shape.aspectRatio Shape.area Shape.rect Shape.circularity].
    unfold within. rewrite ge_le.
    destruct (personRule _); [reflexivity|].
    destruct (circularity >. 0.7); [reflexivity|].
    destruct ((0.8 <=. aspectRatio) && (aspectRatio <=. 1.2)); [reflexivity|].
    destruct (aspectRatio >. 1.5); [reflexivity|].
    destruct (aspectRatio <. 0.67); reflexivity. }
  split; [exact E|]. split; [|split; [exact personRule_true|]].
  - intros contour. unfold detectionOf, shapeOf. cbn. apply E.
  - intros rect aspectRatio extent circularity area Har Harea Hh Hc.
    rewrite E. unfold classifyByRules, ruleChain, firstMatch.
    replace (personRule _) with true; [reflexivity|].
    symmetry. apply personRule_true. cbn. auto.
Qed.

(** A person-shaped disc is a person. *)
Lemma classifyObject_first_match_witness :
  classifyObject (Rect.mk 0 0 100 200) 0.5 0.8 0.9 16000 = objectTypes.HUMAN.
Proof.
  apply (proj2 (proj2 (proj2 classifyObject_first_match))
           (Rect.mk 0 0 100 200) 0.5 0.8 0.9 16000).
  - split; vm_compute; discriminate.
  - split; vm_compute; discriminate.
  - vm_compute; discriminate.
  - vm_compute; reflexivity.
Defined.

(** ** The scorer *)

Lemma switchConfidence_rawScore (label : string) (aspectRatio circularity extent : Q) :
  switchConfidence label aspectRatio circularity extent
  = rawScore label aspectRatio circularity extent.
Proof. reflexivity. Qed.

Lemma calculateConfidence_bounds (label : string) (aspectRatio circularity extent : Q) :
  0.1 <= calculateConfidence label aspectRatio circularity extent <= 0.9.
Proof.
  unfold calculateConfidence, Js.Math_max, Js.Math_min. split.
  - apply Q.le_max_l.
  - apply Q.max_lub; [lra | apply Q.le_min_l].
Qed.

(** C6. The score is the raw score of the label clamped to [0.1, 0.9]; the
    raw score is 0.8 for a person with aspect ratio in [0.4, 0.6] and 0.6 for
    any other person, min(0.9, circularity) for the circular label,
    1 - |aspectRatio - 1| for the square label, and min(0.7, extent) for
    every other label. *)
Theorem calculateConfidence_raw_then_clamp :
  (forall label aspectRatio circularity extent,
      calculateConfidence label aspectRatio circularity extent
      = clamp 0.1 0.9 (rawScore label aspectRatio circularity extent))
  /\ (forall aspectRatio circularity extent,
      0.4 <= aspectRatio <= 0.6 ->
      switchConfidence objectTypes.HUMAN aspectRatio circularity extent = 0.8)
  /\ (forall aspectRatio circularity extent,
      ~ 0.4 <= aspectRatio <= 0.6 ->
      switchConfidence objectTypes.HUMAN aspectRatio circularity extent = 0.6)
  /\ (forall aspectRatio circularity extent,
      switchConfidence objectTypes.CIRCULAR aspectRatio circularity extent
      = Qmin 0.9 circularity)
  /\ (forall aspectRatio circularity extent,
      switchConfidence objectTypes.SQUARE aspectRatio circularity extent
      = 1.0 - Qabs (aspectRatio - 1.0))
  /\ (forall label aspectRatio circularity extent,
      label <> objectTypes.HUMAN ->
      label <> objectTypes.CIRCULAR ->
      label <> objectTypes.SQUARE ->
      switchConfidence label aspectRatio circularity extent = Qmin 0.7 extent).
Proof.
  split; [reflexivity|]. split; [|split; [|split; [reflexivity|split; [reflexivity|]]]].
  - intros aspectRatio circularity extent H.
    unfold switchConfidence. rewrite String.eqb_refl, ge_le.
    apply within_true in H. unfold within in H. now rewrite H.
  - intros aspectRatio circularity extent H.
    unfold switchConfidence. rewrite String.eqb_refl, ge_le.
    destruct ((0.4 <=. aspectRatio) && (aspectRatio <=. 0.6)) eqn:E; [|reflexivity].
    exfalso. apply H. now apply within_true.
  - intros label aspectRatio circularity extent Hh Hc Hs.
    unfold switchConfidence.
    apply String.eqb_neq in Hh, Hc, Hs. now rewrite Hh, Hc, Hs.
Qed.

(** A person of ratio one half scores 0.8, a wide one 0.6, and the label of
    the fallback rule is scored on the extent. *)
Lemma calculateConfidence_raw_then_clamp_witness :
  switchConfidence objectTypes.HUMAN 0.5 0.2 0.9 = 0.8
  /\ switchConfidence objectTypes.HUMAN 0.7 0.2 0.9 = 0.6
  /\ switchConfidence objectTypes.RECTANGULAR 1.3 0.2 0.5 = Qmin 0.7 0.5.
Proof.
  split; [|split].
  - apply (proj1 (proj2 calculateConfidence_raw_then_clamp) 0.5 0.2 0.9).
    split; vm_compute; discriminate.
  - apply (proj1 (proj2 (proj2 calculateConfidence_raw_then_clamp)) 0.7 0.2 0.9).
    intros [_ H]. vm_compute in H. apply H. reflexivity.
  - apply (proj2 (proj2 (proj2 (proj2 (proj2 calculateConfidence_raw_then_clamp))))
             objectTypes.RECTANGULAR 1.3 0.2 0.5); vm_compute; discriminate.
Defined.

(** ** The area filter *)

Lemma passesAreaFilter_true (contour : Contour.t) :
  passesAreaFilter contour = true <-> 1500 <= Contour.contourArea contour.
Proof. unfold passesAreaFilter. apply le_true. Qed.

Lemma analyzeLoop_filter (contours : list Contour.t) :
  forall detectedObjects,
    analyzeLoop contours detectedObjects
    = detectedObjects ++ map detectionOf (filter passesAreaFilter contours).
Proof.
  induction contours as [|contour rest IH]; intros acc; cbn [analyzeLoop filter map].
  - now rewrite app_nil_r.
  - unfold passesAreaFilter at 1. unfold minContourArea. rewrite lt_negb_ge.
    destruct (1500 <=. Contour.contourArea contour); cbn [negb map].
    + rewrite IH, <- app_assoc. reflexivity.
    + apply IH.
Qed.

(** ** Overlap *)

Lemma calculateOverlap_IoU (r1 r2 : Rect.t) : calculateOverlap r1 r2 = IoU r1 r2.
Proof.
  unfold calculateOverlap, IoU, intersectionArea, overlapLength, boxArea.
  destruct r1 as [xa ya wa ha], r2 as [xb yb wb hb]; cbn [Rect.x Rect.y Rect.width Rect.height].
  set (x1 := Z.max xa xb). set (y1 := Z.max ya yb).
  set (x2 := Z.min (xa + wa) (xb + wb)). set (y2 := Z.min (ya + ha) (yb + hb)).
  destruct (x2 <=? x1)%Z eqn:Ex; cbn [orb].
  - apply Z.leb_le in Ex. rewrite (Z.max_l 0 (x2 - x1)) by lia. reflexivity.
  - apply Z.leb_gt in Ex. destruct (y2 <=? y1)%Z eqn:Ey.
    + apply Z.leb_le in Ey. rewrite (Z.max_l 0 (y2 - y1)) by lia.
      rewrite Z.mul_0_r. reflexivity.
    + apply Z.leb_gt in Ey.
      rewrite (Z.max_r 0 (x2 - x1)), (Z.max_r 0 (y2 - y1)) by lia.
      destruct ((x2 - x1) * (y2 - y1) =? 0)%Z eqn:E; [|reflexivity].
      apply Z.eqb_eq in E. nia.
Qed.

(** Where the quotient is taken its divisor is positive: the rationals
    divide as the source does. *)
Lemma calculateOverlap_divisor_positive (r1 r2 : Rect.t) :
  intersectionArea r1 r2 <> 0%Z ->
  (0 < boxArea r1 + boxArea r2 - intersectionArea r1 r2)%Z.
Proof.
  unfold intersectionArea, overlapLength, boxArea.
  destruct r1 as [xa ya wa ha], r2 as [xb yb wb hb]; cbn [Rect.x Rect.y Rect.width Rect.height].
  intros H.
  assert (Hx : (0 < Z.min (xa + wa) (xb + wb) - Z.max xa xb)%Z).
  { destruct (Z.max_spec 0 (Z.min (xa + wa) (xb + wb) - Z.max xa xb)) as [[? E]|[? E]];
      [lia|]. rewrite E in H. lia. }
  assert (Hy : (0 < Z.min (ya + ha) (yb + hb) - Z.max ya yb)%Z).
  { destruct (Z.max_spec 0 (Z.min (ya + ha) (yb + hb) - Z.max ya yb)) as [[? E]|[? E]];
      [lia|]. rewrite E in H. lia. }
  rewrite !Z.max_r by lia.
  set (ix := (Z.min (xa + wa) (xb + wb) - Z.max xa xb)%Z) in *.
  set (iy := (Z.min (ya + ha) (yb + hb) - Z.max ya yb)%Z) in *.
  assert ((ix <= wa)%Z /\ (ix <= wb)%Z /\ (iy <= ha)%Z /\ (iy <= hb)%Z) as (?&?&?&?)
    by (subst ix iy; lia).
  assert ((ix * iy <= wa * ha)%Z) by (apply Z.mul_le_mono_nonneg; lia).
  assert ((0 < wb * hb)%Z) by nia.
  lia.
Qed.

Lemma keepAgainst_suppressedBy (candidate : Detection.t) (filtered : list Detection.t) :
  keepAgainst candidate filtered = negb (suppressedBy candidate filtered).
Proof.
  induction filtered as [|f rest IH]; cbn [keepAgainst suppressedBy existsb].
  - reflexivity.
  - rewrite calculateOverlap_IoU. unfold overlapThreshold.
    destruct (IoU _ _ >. 0.5); cbn [orb negb]; [reflexivity | exact IH].
Qed.

Lemma suppressedBy_true (candidate : Detection.t) (accepted : list Detection.t) :
  suppressedBy candidate accepted = true <->
  exists a, In a accepted
            /\ 0.5 < IoU (Detection.rect candidate) (Detection.rect a).
Proof.
  unfold suppressedBy. rewrite existsb_exists.
  split; intros (a & Hin & H); exists a; (split; [exact Hin|]); now apply gt_true.
Qed.

Lemma removeOverlappingLoop_snoc (detections : list Detection.t) (d : Detection.t) :
  forall filtered,
    removeOverlappingLoop (detections ++ [d]) filtered
    = let accepted := removeOverlappingLoop detections filtered in
      if suppressedBy d accepted then accepted else accepted ++ [d].
Proof.
  induction detections as [|c rest IH]; intros filtered; cbn [app removeOverlappingLoop].
  - rewrite keepAgainst_suppressedBy. cbv zeta.
    destruct (suppressedBy d filtered); reflexivity.
  - destruct (keepAgainst c filtered); apply IH.
Qed.

Lemma removeOverlappingLoop_app (detections more : list Detection.t) :
  forall filtered,
    removeOverlappingLoop (detections ++ more) filtered
    = removeOverlappingLoop more (removeOverlappingLoop detections filtered).
Proof.
  induction detections as [|d rest IH]; intros filtered; cbn [app removeOverlappingLoop].
  - reflexivity.
  - destruct (keepAgainst d filtered); apply IH.
Qed.

(** What has been accepted stays, in place, whatever comes later. *)
Lemma removeOverlappingLoop_prefix (detections : list Detection.t) :
  forall filtered,
    exists later,
      removeOverlappingLoop detections filtered = filtered ++ later
      /\ incl later detections.
Proof.
  induction detections as [|d rest IH]; intros filtered; cbn [removeOverlappingLoop].
  - exists []. split; [now rewrite app_nil_r | apply incl_nil_l].
  - destruct (keepAgainst d filtered).
    + destruct (IH (filtered ++ [d])) as (later & E & Hincl).
      exists (d :: later). split.
      * rewrite E, <- app_assoc. reflexivity.
      * apply incl_cons; [now left | now apply incl_tl].
    + destruct (IH filtered) as (later & E & Hincl).
      exists later. split; [exact E | now apply incl_tl].
Qed.

Lemma removeOverlappingDetections_incl (detections : list Detection.t) :
  incl (removeOverlappingDetections detections) detections.
Proof.
  unfold removeOverlappingDetections.
  destruct (removeOverlappingLoop_prefix detections []) as (later & E & Hincl).
  rewrite E. exact Hincl.
Qed.

(** C4. The overlap is the intersection over union of the two boxes (0 for
    boxes that do not meet); the detections are visited in order and one is
    dropped exactly when its overlap with a detection accepted before it is
    above 0.5; what was accepted before stays, so the first of a cluster
    wins; two detections that overlap by exactly 0.5 are both kept, and the
    later of two that overlap by more (0.51) is dropped. *)
Theorem removeOverlappingDetections_first_wins :
  (forall r1 r2, calculateOverlap r1 r2 = IoU r1 r2)
  /\ (forall detections d,
      removeOverlappingDetections (detections ++ [d])
      = let accepted := removeOverlappingDetections detections in
        if suppressedBy d accepted then accepted else accepted ++ [d])
  /\ (forall d accepted,
      suppressedBy d accepted = true <->
      exists a, In a accepted /\ 0.5 < IoU (Detection.rect d) (Detection.rect a))
  /\ (forall detections more,
      exists later,
        removeOverlappingDetections (detections ++ more)
        = removeOverlappingDetections detections ++ later
        /\ incl later more)
  /\ (forall first later,
      IoU (Detection.rect later) (Detection.rect first) == 0.5 ->
      removeOverlappingDetections [first; later] = [first; later])
  /\ (forall first later,
      0.5 < IoU (Detection.rect later) (Detection.rect first) ->
      removeOverlappingDetections [first; later] = [first]).
Proof.
  split; [exact calculateOverlap_IoU|].
  split; [intros; apply removeOverlappingLoop_snoc|].
  split; [exact suppressedBy_true|].
  split.
  { intros detections more. unfold removeOverlappingDetections.
    rewrite removeOverlappingLoop_app. apply removeOverlappingLoop_prefix. }
  split; intros first later H;
    unfold removeOverlappingDetections;
    cbn [removeOverlappingLoop keepAgainst app];
    rewrite calculateOverlap_IoU; unfold overlapThreshold.
  - replace (IoU _ _ >. 0.5) with false; [reflexivity|].
    symmetry. apply gt_false. rewrite H. apply Qle_refl.
  - replace (IoU _ _ >. 0.5) with true; [reflexivity|].
    symmetry. now apply gt_true.
Qed.

(** The half box overlaps the full box by exactly 0.5 and is kept; the box
    of 51 rows overlaps it by 0.51 and is dropped. *)
Lemma removeOverlappingDetections_first_wins_witness :
  (IoU (Detection.rect halfBox) (Detection.rect fullBox) == 0.5
   /\ removeOverlappingDetections [fullBox; halfBox] = [fullBox; halfBox])
  /\ (IoU (Detection.rect box51) (Detection.rect fullBox) == 0.51
      /\ removeOverlappingDetections [fullBox; box51] = [fullBox]).
Proof.
  split; split.
  - vm_compute. reflexivity.
  - apply (proj1 (proj2 (proj2 (proj2 (proj2 removeOverlappingDetections_first_wins))))
             fullBox halfBox).
    vm_compute. reflexivity.
  - vm_compute. reflexivity.
  - apply (proj2 (proj2 (proj2 (proj2 (proj2 removeOverlappingDetections_first_wins))))
             fullBox box51).
    vm_compute. reflexivity.
Defined.

(** ** Ranking and truncation *)

Lemma byConfidence_gt (a b : Detection.t) :
  (byConfidence a b >. 0) = true <-> Detection.confidence a < Detection.confidence b.
Proof. unfold byConfidence. rewrite gt_true. split; intros; lra. Qed.

Lemma byConfidence_not_gt (a b : Detection.t) :
  (byConfidence a b >. 0) = false <-> confidenceGe a b.
Proof. unfold byConfidence, confidenceGe. rewrite gt_false. split; intros; lra. Qed.

Lemma confidenceGe_trans (a b c : Detection.t) :
  confidenceGe a b -> confidenceGe b c -> confidenceGe a c.
Proof. unfold confidenceGe. intros. lra. Qed.

Section Sorting.
Context {A : Type} (compareFn : A -> A -> Q).

Lemma insertBy_perm (a : A) (l : list A) : Permutation (insertBy compareFn a l) (a :: l).
Proof.
  induction l as [|b rest IH]; cbn [insertBy].
  - apply Permutation_refl.
  - destruct (compareFn a b >. 0).
    + apply perm_trans with (b :: a :: rest); [now apply perm_skip | apply perm_swap].
    + apply Permutation_refl.
Qed.

Lemma Array_sort_perm (l : list A) : Permutation (Array_sort compareFn l) l.
Proof.
  induction l as [|a rest IH]; cbn [Array_sort fold_right].
  - apply perm_nil.
  - apply perm_trans with (a :: Array_sort compareFn rest).
    + apply insertBy_perm.
    + now apply perm_skip.
Qed.

End Sorting.

Lemma insertBy_sorted (a : Detection.t) (l : list Detection.t) :
  StronglySorted confidenceGe l ->
  StronglySorted confidenceGe (insertBy byConfidence a l).
Proof.
  induction 1 as [|b rest Hsorted IH Hall]; cbn [insertBy].
  - constructor; [constructor | constructor].
  - destruct (byConfidence a b >. 0) eqn:E.
    + apply byConfidence_gt in E. constructor; [exact IH|].
      apply (Permutation_Forall (Permutation_sym (insertBy_perm byConfidence a rest))).
      constructor; [|exact Hall].
      unfold confidenceGe. lra.
    + apply byConfidence_not_gt in E.
      constructor; [now constructor|].
      constructor; [exact E|].
      eapply Forall_impl; [|exact Hall].
      intros c Hc. exact (confidenceGe_trans a b c E Hc).
Qed.

Lemma Array_sort_sorted (l : list Detection.t) :
  StronglySorted confidenceGe (Array_sort byConfidence l).
Proof.
  induction l as [|a rest IH]; cbn [Array_sort fold_right].
  - constructor.
  - now apply insertBy_sorted.
Qed.

Lemma In_firstn {A} (n : nat) (l : list A) (a : A) : In a (firstn n l) -> In a l.
Proof.
  intros H. rewrite <- (firstn_skipn n l). apply in_or_app. now left.
Qed.

Lemma firstn_sorted {A} (R : A -> A -> Prop) (l : list A) :
  StronglySorted R l -> forall n, StronglySorted R (firstn n l).
Proof.
  induction 1 as [|a rest Hsorted IH Hall]; intros [|n]; cbn [firstn]; try constructor.
  - apply IH.
  - apply Forall_forall. intros b Hb. apply In_firstn in Hb.
    revert b Hb. now apply Forall_forall.
Qed.

Lemma postProcess_eq (detectedObjects : list Detection.t) :
  postProcess detectedObjects
  = firstn 10 (Array_sort byConfidence (removeOverlappingDetections detectedObjects)).
Proof.
  unfold postProcess. cbv zeta.
  destruct (10 <? _)%nat eqn:E; [reflexivity|].
  apply Nat.ltb_ge in E. now rewrite firstn_all2.
Qed.

Lemma postProcess_length (detectedObjects : list Detection.t) :
  (List.length (postProcess detectedObjects) <= 10)%nat.
Proof. rewrite postProcess_eq. apply firstn_le_length. Qed.

Lemma postProcess_sorted (detectedObjects : list Detection.t) :
  StronglySorted confidenceGe (postProcess detectedObjects).
Proof. rewrite postProcess_eq. apply firstn_sorted, Array_sort_sorted. Qed.

Lemma postProcess_incl (detectedObjects : list Detection.t) :
  incl (postProcess detectedObjects) detectedObjects.
Proof.
  rewrite postProcess_eq. intros d Hd. apply In_firstn in Hd.
  apply removeOverlappingDetections_incl.
  revert Hd. apply Permutation_in, Array_sort_perm.
Qed.

(** ** The monad of methods *)

Lemma pair_fst_snd {A B} (p : A * B) (a : A) : fst p = a -> p = (a, snd p).
Proof. intros <-. apply surjective_pairing. Defined.

Section Monad.
Context {A B : Type}.

Lemma bind_Normal (m : M A) (k : A -> M B) this b this' :
  bind m k this = (Normal b, this') ->
  exists a this1, m this = (Normal a, this1) /\ k a this1 = (Normal b, this').
Proof.
  unfold bind. destruct (m this) as [[a|e] this1]; intros H.
  - now exists a, this1.
  - discriminate.
Qed.

Lemma bind_Throw (m : M A) (k : A -> M B) this e this' :
  m this = (Throw e, this') -> bind m k this = (Throw e, this').
Proof. unfold bind. now intros ->. Qed.

Lemma bind_step (m : M A) (k : A -> M B) this a this1 :
  m this = (Normal a, this1) -> bind m k this = k a this1.
Proof. unfold bind. now intros ->. Qed.

Lemma try_catch_neverThrows (body : M A) (handler : exn -> M A) :
  (forall e, neverThrows (handler e)) -> neverThrows (try_catch body handler).
Proof.
  intros H this. unfold try_catch.
  destruct (body this) as [[a|e] this1].
  - now exists a, this1.
  - apply H.
Qed.

End Monad.

Create HintDb frame.

Section Frame.
Context {A B : Type}.

Lemma keeps_ret (a : A) : keepsDetections (ret a).
Proof. intros s c s' H. now inversion H. Qed.

Lemma keeps_throw (e : exn) : keepsDetections (@throw A e).
Proof. intros s c s' H. now inversion H. Qed.

Lemma keeps_call (c : completion A) : keepsDetections (call c).
Proof. intros s c' s' H. now inversion H. Qed.

Lemma keeps_bind (m : M A) (k : A -> M B) :
  keepsDetections m -> (forall a, keepsDetections (k a)) -> keepsDetections (bind m k).
Proof.
  intros Hm Hk s c s'. unfold bind.
  destruct (m s) as [[a|e] s1] eqn:E; intros H.
  - rewrite (Hk a _ _ _ H). exact (Hm _ _ _ E).
  - inversion H; subst. exact (Hm _ _ _ E).
Qed.

End Frame.

Lemma keeps_get : keepsDetections get.
Proof. intros s c s' H. now inversion H. Qed.

Lemma keeps_raise_if (fault : option exn) : keepsDetections (raise_if fault).
Proof. destruct fault; intros s c s' H; now inversion H. Qed.

Lemma keeps_modify (f : ObjectDetector.t -> ObjectDetector.t) :
  (forall this,
      ObjectDetector.detectedObjects (f this) = ObjectDetector.detectedObjects this) ->
  keepsDetections (modify f).
Proof. intros Hf s c s' H. inversion H; subst. apply Hf. Qed.

Lemma keeps_useMat (field : option Mat.t) : keepsDetections (useMat field).
Proof.
  destruct field as [m|]; cbn; [destruct (Mat.isDeleted m)|];
    intros s c s' H; now inversion H.
Qed.

Lemma keeps_useMatVector (field : option MatVector.t) :
  keepsDetections (useMatVector field).
Proof.
  destruct field as [v|]; cbn; [destruct (MatVector.isDeleted v)|];
    intros s c s' H; now inversion H.
Qed.

Lemma keeps_TypedArray_set (target source : list Byte.byte) :
  keepsDetections (TypedArray_set target source).
Proof.
  unfold TypedArray_set. destruct (_ <? _)%nat; intros s c s' H; now inversion H.
Qed.

#[local] Hint Resolve keeps_ret keeps_throw keeps_call keeps_get keeps_raise_if
  keeps_useMat keeps_useMatVector keeps_TypedArray_set : frame.
#[local] Hint Extern 2 (keepsDetections (bind _ _)) =>
  apply keeps_bind; [|intro] : frame.
#[local] Hint Extern 2 (keepsDetections (modify _)) =>
  apply keeps_modify; intro; reflexivity : frame.

Lemma keeps_ctx_getImageData (env : Env) (sw sh : nat) :
  keepsDetections (ctx_getImageData env sw sh).
Proof.
  unfold ctx_getImageData. destruct (_ || _); auto with frame.
Qed.

#[local] Hint Resolve keeps_ctx_getImageData : frame.

Lemma keeps_captureCurrentFrame (env : Env) : keepsDetections (captureCurrentFrame env).
Proof. unfold captureCurrentFrame. auto 20 with frame. Qed.

Lemma keeps_cvtColor (env : Env) : keepsDetections (cvtColor env).
Proof. unfold cvtColor. auto 20 with frame. Qed.

Lemma keeps_preprocessImage (env : Env) : keepsDetections (preprocessImage env).
Proof. unfold preprocessImage. auto 30 with frame. Qed.

Lemma keeps_findContours (env : Env) : keepsDetections (findContours env).
Proof. unfold findContours. auto 20 with frame. Qed.

Lemma keeps_drawDetections (env : Env) : keepsDetections (drawDetections env).
Proof. unfold drawDetections. auto with frame. Qed.

(** ** The stages of a frame *)

Lemma raise_if_Normal (fault : option exn) this u this' :
  raise_if fault this = (Normal u, this') -> this' = this.
Proof. destruct fault; intros H; now inversion H. Qed.

Lemma useMatVector_Normal (field : option MatVector.t) this v this' :
  useMatVector field this = (Normal v, this') ->
  field = Some v /\ MatVector.isDeleted v = false /\ this' = this.
Proof.
  destruct field as [w|]; cbn; [destruct (MatVector.isDeleted w) eqn:E|];
    intros H; inversion H; subst; auto.
Qed.

Lemma useMat_Normal (field : option Mat.t) this m this' :
  useMat field this = (Normal m, this') ->
  field = Some m /\ Mat.isDeleted m = false /\ this' = this.
Proof.
  destruct field as [w|]; cbn; [destruct (Mat.isDeleted w) eqn:E|];
    intros H; inversion H; subst; auto.
Qed.

Ltac invert_bind H :=
  let a := fresh "a" in
  let s := fresh "this" in
  let H1 := fresh "Hstep" in
  apply bind_Normal in H; destruct H as (a & s & H1 & H).

Lemma findContours_Normal (env : Env) this u this' :
  findContours env this = (Normal u, this') ->
  exists dst v found,
    cv_findContours env dst = Normal found
    /\ ObjectDetector.contours this' = Some (MatVector.with_items v found)
    /\ MatVector.isDeleted v = false.
Proof.
  unfold findContours. intros H.
  invert_bind H. inversion Hstep; subst; clear Hstep.
  invert_bind H. apply useMat_Normal in Hstep as (_ & _ & ->).
  invert_bind H. apply useMatVector_Normal in Hstep as (_ & Hlive & ->).
  invert_bind H. apply useMat_Normal in Hstep as (_ & _ & ->).
  invert_bind H. inversion Hstep; subst; clear Hstep.
  inversion H; subst; clear H.
  do 3 eexists. split; [eassumption|]. cbn. split; [reflexivity | assumption].
Qed.

Lemma analyzeContours_Normal this u this' :
  analyzeContours this = (Normal u, this') ->
  exists v,
    ObjectDetector.contours this = Some v
    /\ MatVector.isDeleted v = false
    /\ ObjectDetector.detectedObjects this'
       = postProcess (analyzeLoop (MatVector.items v)
                        (ObjectDetector.detectedObjects this)).
Proof.
  unfold analyzeContours, postProcessDetections. intros H.
  invert_bind H. inversion Hstep; subst; clear Hstep.
  invert_bind H. apply useMatVector_Normal in Hstep as (Hv & Hlive & ->).
  invert_bind H. inversion Hstep; subst; clear Hstep.
  inversion H; subst; clear H.
  eexists. split; [eassumption|]. cbn. split; [assumption | reflexivity].
Qed.

(** When the guarded block completes normally, its value is the complete
    list: every contour found went through the filter, the classifier and
    the scorer, and the list went through suppression, ranking and
    truncation; it is also what [this.detectedObjects] holds. *)
Lemma processFrame_try_Normal (env : Env) this l this' :
  processFrame_try env this = (Normal l, this') ->
  exists dst found,
    cv_findContours env dst = Normal found
    /\ l = postProcess (analyzeLoop found [])
    /\ ObjectDetector.detectedObjects this' = l.
Proof.
  unfold processFrame_try. intros H.
  invert_bind H. inversion Hstep; subst; clear Hstep.
  invert_bind H. apply keeps_captureCurrentFrame in Hstep. cbn in Hstep.
  invert_bind H. apply keeps_cvtColor in Hstep0.
  invert_bind H. apply keeps_preprocessImage in Hstep1.
  invert_bind H. pose proof (keeps_findContours _ _ _ _ Hstep2) as Hkeep.
  apply findContours_Normal in Hstep2 as (dst & v & found & Hfound & Hv & _).
  invert_bind H. apply raise_if_Normal in Hstep2. subst.
  invert_bind H. apply analyzeContours_Normal in Hstep2 as (w & Hw & _ & Hpost).
  invert_bind H. apply keeps_drawDetections in Hstep2.
  invert_bind H. inversion Hstep3; subst; clear Hstep3.
  inversion H; subst; clear H.
  exists dst, found. split; [exact Hfound|].
  rewrite Hv in Hw. inversion Hw; subst w. cbn in Hpost.
  rewrite Hkeep, Hstep1, Hstep0, Hstep in Hpost.
  rewrite Hstep2, Hpost. auto.
Qed.

Lemma processFrame_uninitialized (env : Env) this :
  ObjectDetector.isInitialized this = false ->
  processFrame env this = (Normal [], this).
Proof.
  intros H. unfold processFrame, bind, get. now rewrite H.
Qed.

Lemma processFrame_initialized (env : Env) this :
  ObjectDetector.isInitialized this = true ->
  processFrame env this
  = try_catch (processFrame_try env) (fun _ => ret []) this.
Proof.
  intros H. unfold processFrame, bind, get. now rewrite H.
Qed.

(** The result of a frame, by cases on the flag and on how the guarded
    block completes. *)
Lemma processFrame_cases (env : Env) this :
  exists l this',
    processFrame env this = (Normal l, this')
    /\ ((ObjectDetector.isInitialized this = false /\ l = [] /\ this' = this)
        \/ (ObjectDetector.isInitialized this = true
            /\ exists e, processFrame_try env this = (Throw e, this') /\ l = [])
        \/ (ObjectDetector.isInitialized this = true
            /\ processFrame_try env this = (Normal l, this'))).
Proof.
  destruct (ObjectDetector.isInitialized this) eqn:Hinit.
  - rewrite (processFrame_initialized env this Hinit). unfold try_catch.
    destruct (processFrame_try env this) as [[l|e] this1] eqn:E.
    + exists l, this1. split; [reflexivity|]. right; right. auto.
    + exists [], this1. split; [reflexivity|]. right; left. split; [reflexivity|].
      now exists e.
  - exists [], this. split; [now apply processFrame_uninitialized|]. left. auto.
Qed.

(** ** What a frame returns *)

Lemma detectionOf_confidence (contour : Contour.t) :
  confidenceInRange (detectionOf contour).
Proof. apply calculateConfidence_bounds. Qed.

Lemma analyzeLoop_confidence (contours : list Contour.t) :
  Forall confidenceInRange (analyzeLoop contours []).
Proof.
  rewrite analyzeLoop_filter. cbn [app]. apply Forall_forall.
  intros d Hd. apply in_map_iff in Hd as (c & <- & _).
  apply detectionOf_confidence.
Qed.

(** C3. The scorer returns a value between 0.1 and 0.9 for every label and
    all descriptor values; so does the detection built for any contour; and
    every detection of the list a frame returns has its confidence between
    0.1 and 0.9. *)
Theorem confidence_always_in_range :
  (forall label aspectRatio circularity extent,
      0.1 <= calculateConfidence label aspectRatio circularity extent <= 0.9)
  /\ (forall contour, confidenceInRange (detectionOf contour))
  /\ (forall contours, Forall confidenceInRange (postProcess (analyzeLoop contours [])))
  /\ (forall env this,
      exists l this',
        processFrame env this = (Normal l, this') /\ Forall confidenceInRange l).
Proof.
  assert (Hpost : forall contours,
             Forall confidenceInRange (postProcess (analyzeLoop contours []))).
  { intros contours. apply Forall_forall. intros d Hd.
    apply postProcess_incl in Hd. revert d Hd. apply Forall_forall.
    apply analyzeLoop_confidence. }
  split; [exact calculateConfidence_bounds|].
  split; [exact detectionOf_confidence|].
  split; [exact Hpost|].
  intros env this.
  destruct (processFrame_cases env this) as (l & this' & E & Hcases).
  exists l, this'. split; [exact E|].
  destruct Hcases as [(_ & -> & _) | [(_ & e & _ & ->) | (_ & Htry)]];
    try constructor.
  apply processFrame_try_Normal in Htry as (dst & found & _ & -> & _).
  apply Hpost.
Qed.

Lemma analyzeLoop_min_area (contours : list Contour.t) :
  Forall areaAtLeastMin (analyzeLoop contours []).
Proof.
  rewrite analyzeLoop_filter. cbn [app]. apply Forall_forall.
  intros d Hd. apply in_map_iff in Hd as (c & <- & Hc).
  apply filter_In in Hc as (_ & Hc). now apply passesAreaFilter_true.
Qed.

(** C2. The loop over the contours pushes, in order, one detection for each
    contour whose area is at least 1500 and nothing for the others; a contour
    of area 1499 gives no detection and a contour of area exactly 1500 gives
    one; and every detection of the list a frame returns has an area of at
    least 1500. *)
Theorem analyzeLoop_emits_iff_min_area :
  (forall contours,
      analyzeLoop contours []
      = map detectionOf (filter passesAreaFilter contours))
  /\ (forall contour,
      passesAreaFilter contour = true <-> 1500 <= Contour.contourArea contour)
  /\ (forall before contour after,
      analyzeLoop (before ++ contour :: after) []
      = analyzeLoop before []
        ++ (if passesAreaFilter contour then [detectionOf contour] else [])
        ++ analyzeLoop after [])
  /\ (forall rect perimeter,
      analyzeLoop [Contour.mk 1499 rect perimeter] [] = [])
  /\ (forall rect perimeter,
      analyzeLoop [Contour.mk 1500 rect perimeter] []
      = [detectionOf (Contour.mk 1500 rect perimeter)])
  /\ (forall env this,
      exists l this',
        processFrame env this = (Normal l, this') /\ Forall areaAtLeastMin l).
Proof.
  split; [|split; [|split; [|split; [|split]]]].
  - intros. now rewrite analyzeLoop_filter.
  - exact passesAreaFilter_true.
  - intros. rewrite !analyzeLoop_filter. cbn [app].
    rewrite filter_app, map_app. cbn [filter].
    destruct (passesAreaFilter contour); reflexivity.
  - reflexivity.
  - reflexivity.
  - intros env this.
    destruct (processFrame_cases env this) as (l & this' & E & Hcases).
    exists l, this'. split; [exact E|].
    destruct Hcases as [(_ & -> & _) | [(_ & e & _ & ->) | (_ & Htry)]];
      try constructor.
    apply processFrame_try_Normal in Htry as (dst & found & _ & -> & _).
    apply Forall_forall. intros d Hd. apply postProcess_incl in Hd.
    revert d Hd. apply Forall_forall. apply analyzeLoop_min_area.
Qed.

(** C5. The list a frame returns has at most ten detections and is in
    descending order of confidence; post-processing is the suppression of
    overlaps first, then the sort on what survived, then the truncation to
    ten; the sort only reorders. *)
Theorem processFrame_top10_sorted :
  (forall env this,
      exists l this',
        processFrame env this = (Normal l, this')
        /\ (List.length l <= 10)%nat
        /\ StronglySorted confidenceGe l)
  /\ (forall detectedObjects,
      postProcess detectedObjects
      = firstn 10 (Array_sort byConfidence
                     (removeOverlappingDetections detectedObjects)))
  /\ (forall survivors,
      Permutation (Array_sort byConfidence survivors) survivors
      /\ StronglySorted confidenceGe (Array_sort byConfidence survivors)).
Proof.
  split; [|split; [exact postProcess_eq|]].
  - intros env this.
    destruct (processFrame_cases env this) as (l & this' & E & Hcases).
    exists l, this'. split; [exact E|].
    destruct Hcases as [(_ & -> & _) | [(_ & e & _ & ->) | (_ & Htry)]].
    + split; [cbn; lia | constructor].
    + split; [cbn; lia | constructor].
    + apply processFrame_try_Normal in Htry as (dst & found & _ & -> & _).
      split; [apply postProcess_length | apply postProcess_sorted].
  - intros survivors. split; [apply Array_sort_perm | apply Array_sort_sorted].
Qed.

(** C7. A frame never completes by throwing: it always returns a list.  The
    list is empty when the guarded block stops on a thrown value, whatever
    stage threw, and otherwise it is the complete list for the contours
    found: filtered, classified, scored, deduplicated, ranked and truncated. *)
Theorem processFrame_never_throws :
  forall env this,
    exists l this',
      processFrame env this = (Normal l, this')
      /\ (forall e this1, processFrame_try env this = (Throw e, this1) -> l = [])
      /\ (l = []
          \/ exists dst found,
               cv_findContours env dst = Normal found
               /\ l = postProcess (analyzeLoop found [])).
Proof.
  intros env this.
  destruct (processFrame_cases env this) as (l & this' & E & Hcases).
  exists l, this'. split; [exact E|].
  destruct Hcases as [(_ & -> & _) | [(_ & e & _ & ->) | (_ & Htry)]]; auto.
  split.
  - intros e this1 Hthrow. rewrite Hthrow in Htry. discriminate.
  - right. apply processFrame_try_Normal in Htry as (dst & found & Hfound & -> & _).
    now exists dst, found.
Qed.

(** With a canvas that fails while the boxes are drawn, after the detections
    have been computed, the frame returns the empty list. *)
Lemma processFrame_never_throws_witness :
  fst (processFrame (brokenCanvasEnv 640 480) detector640x480) = Normal [].
Proof.
  destruct (processFrame_never_throws (brokenCanvasEnv 640 480) detector640x480)
    as (l & this' & E & Hthrow & _).
  rewrite E. cbn [fst]. f_equal.
  apply (Hthrow (OtherError "InvalidStateError")
           (snd (processFrame_try (brokenCanvasEnv 640 480) detector640x480))).
  apply pair_fst_snd. vm_compute. reflexivity.
Defined.

(** C10. While the flag is false a frame returns the empty list at once and
    leaves the instance, its buffers and its detections as they were,
    whatever the collaborators would do: on a new instance, after an
    [initialize] that reported failure on a new instance, and after a
    [cleanup] that ran to its end. *)
Theorem processFrame_before_initialize :
  (forall env this,
      ObjectDetector.isInitialized this = false ->
      processFrame env this = (Normal [], this))
  /\ (forall env, processFrame env ObjectDetector.new = (Normal [], ObjectDetector.new))
  /\ (forall env0 videoWidth videoHeight this env,
      initialize env0 videoWidth videoHeight ObjectDetector.new = (Normal false, this) ->
      processFrame env this = (Normal [], this))
  /\ (forall this0 this env,
      cleanup this0 = (Normal tt, this) ->
      processFrame env this = (Normal [], this)).
Proof.
  split; [exact processFrame_uninitialized|].
  split; [intros; now apply processFrame_uninitialized|].
  split.
  - intros env0 w h this env H. apply processFrame_uninitialized.
    unfold initialize, try_catch in H.
    destruct (bind _ _ ObjectDetector.new) as [[b|e] this1] eqn:E.
    + inversion H; subst. clear H.
      repeat (invert_bind E; try clear Hstep).
      inversion E.
    + inversion H; subst. clear H.
      revert E. unfold new_Mat, new_MatVector, bind, raise_if, modify, ret, throw.
      repeat (destruct (cv_new_fault env0 _); [intros E; now inversion E|]).
      discriminate.
  - intros this0 this env H. apply processFrame_uninitialized.
    unfold cleanup in H.
    repeat (invert_bind H; try clear Hstep).
    inversion H. reflexivity.
Qed.

Lemma processFrame_before_initialize_witness :
  processFrame (sceneEnv 640 480) (snd (cleanup detector640x480))
  = (Normal [], snd (cleanup detector640x480)).
Proof.
  apply (proj2 (proj2 (proj2 processFrame_before_initialize)) detector640x480).
  apply pair_fst_snd. vm_compute. reflexivity.
Defined.

(** ** The size of the frame *)

Lemma captureCurrentFrame_eq (env : Env) this :
  captureCurrentFrame env this
  = match ctx_drawImage env 0%nat with
    | Some e => (Throw e, this)
    | None =>
        if ((canvas_width env =? 0) || (canvas_height env =? 0))%nat
        then (Throw IndexSizeError, this)
        else
          match ctx_getImageData_fault env with
          | Some e => (Throw e, this)
          | None =>
              match ObjectDetector.src this with
              | None => (Throw TypeError, this)
              | Some src =>
                  if Mat.isDeleted src then (Throw BindingError, this)
                  else if (List.length (Mat.data src) <? List.length (frameBytes env))%nat
                  then (Throw RangeError, this)
                  else (Normal tt,
                        ObjectDetector.set_src
                          (Some (Mat.with_data src
                                   (frameBytes env
                                    ++ skipn (List.length (frameBytes env)) (Mat.data src))))
                          this)
              end
          end
    end.
Proof.
  unfold captureCurrentFrame, ctx_getImageData, TypedArray_set, frameBytes, useMat,
    bind, raise_if, get, modify, ret, throw.
  destruct (ctx_drawImage env 0%nat); cbv beta iota; [reflexivity|].
  destruct (_ || _); cbv beta iota; [reflexivity|].
  destruct (ctx_getImageData_fault env); cbv beta iota; [reflexivity|].
  destruct (ObjectDetector.src this) as [src|]; cbv beta iota; [|reflexivity].
  destruct (Mat.isDeleted src); cbv beta iota; [reflexivity|].
  destruct (_ <? _)%nat; reflexivity.
Qed.

Lemma frameBytes_length (env : Env) :
  List.length (frameBytes env) = (4 * canvas_width env * canvas_height env)%nat.
Proof. unfold frameBytes. now rewrite length_map, length_seq. Qed.

Lemma processFrame_try_capture_Throw (env : Env) this e this1 :
  captureCurrentFrame env (ObjectDetector.set_detectedObjects [] this) = (Throw e, this1) ->
  processFrame_try env this = (Throw e, this1).
Proof.
  intros H. unfold processFrame_try.
  rewrite (bind_step _ _ this tt (ObjectDetector.set_detectedObjects [] this))
    by reflexivity.
  now apply bind_Throw.
Qed.

Lemma initialize_true (env : Env) (videoWidth videoHeight : nat) this :
  initialize env videoWidth videoHeight ObjectDetector.new = (Normal true, this) ->
  this = ObjectDetector.mk true []
           (Some (Mat.create videoHeight videoWidth 4))
           (Some (Mat.create videoHeight videoWidth 1))
           (Some Mat.empty) (Some MatVector.empty) (Some Mat.empty).
Proof.
  unfold initialize, try_catch, new_Mat, new_MatVector, bind, raise_if, modify, ret, throw.
  repeat (destruct (cv_new_fault env _); [intros E; now inversion E|]).
  intros E. now inversion E.
Qed.

Lemma initialize_working_size (env : Env) (videoWidth videoHeight : nat) this :
  initialize env videoWidth videoHeight ObjectDetector.new = (Normal true, this) ->
  ObjectDetector.isInitialized this = true
  /\ exists src,
      ObjectDetector.src this = Some src
      /\ Mat.isDeleted src = false
      /\ List.length (Mat.data src) = (4 * videoWidth * videoHeight)%nat.
Proof.
  intros H. apply initialize_true in H. subst this. split; [reflexivity|].
  eexists. split; [reflexivity|]. split; [reflexivity|].
  cbn [Mat.create Mat.data]. rewrite repeat_length. lia.
Qed.

Lemma capture_Throw_caught (env : Env) this e this1 :
  ObjectDetector.isInitialized this = true ->
  captureCurrentFrame env (ObjectDetector.set_detectedObjects [] this) = (Throw e, this1) ->
  processFrame_try env this = (Throw e, this1)
  /\ processFrame env this = (Normal [], this1).
Proof.
  intros Hinit H. apply processFrame_try_capture_Throw in H.
  split; [exact H|].
  rewrite (processFrame_initialized env this Hinit). unfold try_catch. now rewrite H.
Qed.

(** The guarded block does produce detections for a frame of another size
    than the working size: here a frame of 320 by 240 for a detector
    initialized for 640 by 480. *)
Lemma undersized_frame_is_processed :
  ~ failsFastOnInvalidFrame
  /\ initialize (sceneEnv 320 240) 640 480 ObjectDetector.new
     = (Normal true, detector640x480)
  /\ fst (processFrame (sceneEnv 320 240) detector640x480)
     = Normal [detectionOf discContour; detectionOf figureContour].
Proof.
  split; [|split; [reflexivity | vm_compute; reflexivity]].
  intros H.
  destruct (H (sceneEnv 320 240) 640%nat 480%nat detector640x480) as (e & this' & E).
  - reflexivity.
  - right; right; left. cbn [sceneEnv sceneEnvWith canvas_width]. discriminate.
  - assert (D : fst (processFrame_try (sceneEnv 320 240) detector640x480)
                = Throw e) by now rewrite E.
    vm_compute in D. discriminate.
Qed.

(** C8, as the code has it.  [initialize] sizes the source buffer to four
    bytes for each pixel of the working size, and [processFrame] compares no
    dimensions.  A frame with a zero width or height makes the capture throw
    (an [IndexSizeError] when [drawImage] did not throw first); a frame with
    more bytes than the source buffer makes it throw (a [RangeError] when
    nothing threw before and the buffer is in use); the thrown value is
    caught and the frame returns the empty list.  A frame with no zero side
    that fits in the buffer is captured: with collaborators that do not
    throw, its bytes overwrite the start of the buffer. *)
Theorem processFrame_frame_size_unchecked :
  (forall env videoWidth videoHeight this,
      initialize env videoWidth videoHeight ObjectDetector.new = (Normal true, this) ->
      ObjectDetector.isInitialized this = true
      /\ exists src,
          ObjectDetector.src this = Some src
          /\ Mat.isDeleted src = false
          /\ List.length (Mat.data src) = (4 * videoWidth * videoHeight)%nat)
  /\ (forall env this,
      ObjectDetector.isInitialized this = true ->
      canvas_width env = 0%nat \/ canvas_height env = 0%nat ->
      exists e,
        processFrame_try env this
        = (Throw e, ObjectDetector.set_detectedObjects [] this)
        /\ processFrame env this
           = (Normal [], ObjectDetector.set_detectedObjects [] this)
        /\ (ctx_drawImage env 0%nat = None -> e = IndexSizeError))
  /\ (forall env this src,
      ObjectDetector.isInitialized this = true ->
      ObjectDetector.src this = Some src ->
      (List.length (Mat.data src) < 4 * canvas_width env * canvas_height env)%nat ->
      exists e,
        processFrame_try env this
        = (Throw e, ObjectDetector.set_detectedObjects [] this)
        /\ processFrame env this
           = (Normal [], ObjectDetector.set_detectedObjects [] this)
        /\ (ctx_drawImage env 0%nat = None ->
            ctx_getImageData_fault env = None ->
            Mat.isDeleted src = false ->
            e = RangeError))
  /\ (forall env this src,
      ObjectDetector.src this = Some src ->
      Mat.isDeleted src = false ->
      canvas_width env <> 0%nat ->
      canvas_height env <> 0%nat ->
      (4 * canvas_width env * canvas_height env <= List.length (Mat.data src))%nat ->
      ctx_drawImage env 0%nat = None ->
      ctx_getImageData_fault env = None ->
      captureCurrentFrame env (ObjectDetector.set_detectedObjects [] this)
      = (Normal tt, afterCapture env src this)).
Proof.
  split; [exact initialize_working_size|]. split; [|split].
  - intros env this Hinit Hzero.
    assert (Hz : ((canvas_width env =? 0) || (canvas_height env =? 0))%nat = true).
    { apply orb_true_iff. rewrite !Nat.eqb_eq. exact Hzero. }
    assert (exists e,
               captureCurrentFrame env (ObjectDetector.set_detectedObjects [] this)
               = (Throw e, ObjectDetector.set_detectedObjects [] this)
               /\ (ctx_drawImage env 0%nat = None -> e = IndexSizeError))
      as (e & Hcap & He).
    { rewrite captureCurrentFrame_eq, Hz.
      destruct (ctx_drawImage env 0%nat) as [e0|].
      - exists e0. split; [reflexivity | discriminate].
      - exists IndexSizeError. split; reflexivity. }
    exists e. destruct (capture_Throw_caught env this e _ Hinit Hcap). auto.
  - intros env this src Hinit Hsrc Hlarge.
    assert (Hl : (List.length (Mat.data src) <? List.length (frameBytes env))%nat = true).
    { apply Nat.ltb_lt. now rewrite frameBytes_length. }
    assert (exists e,
               captureCurrentFrame env (ObjectDetector.set_detectedObjects [] this)
               = (Throw e, ObjectDetector.set_detectedObjects [] this)
               /\ (ctx_drawImage env 0%nat = None ->
                   ctx_getImageData_fault env = None ->
                   Mat.isDeleted src = false ->
                   e = RangeError))
      as (e & Hcap & He).
    { rewrite captureCurrentFrame_eq.
      cbn [ObjectDetector.src ObjectDetector.set_detectedObjects]. rewrite Hsrc, Hl.
      destruct (ctx_drawImage env 0%nat) as [e0|];
        [exists e0; split; [reflexivity | discriminate]|].
      destruct (_ || _) eqn:Ez.
      { exists IndexSizeError. split; [reflexivity|]. intros _ _ _. exfalso.
        apply orb_true_iff in Ez. rewrite !Nat.eqb_eq in Ez.
        destruct Ez as [Ez|Ez]; rewrite Ez in Hlarge; lia. }
      destruct (ctx_getImageData_fault env) as [e1|];
        [exists e1; split; [reflexivity | discriminate]|].
      destruct (Mat.isDeleted src);
        [exists BindingError; split; [reflexivity | discriminate]|].
      exists RangeError; split; reflexivity. }
    exists e. destruct (capture_Throw_caught env this e _ Hinit Hcap). auto.
  - intros env this src Hsrc Hlive Hw Hh Hfits Hdraw Hfault.
    rewrite captureCurrentFrame_eq.
    cbn [ObjectDetector.src ObjectDetector.set_detectedObjects].
    rewrite Hdraw, Hfault, Hsrc, Hlive.
    replace ((canvas_width env =? 0) || (canvas_height env =? 0))%nat with false.
    + replace (_ <? _)%nat with false; [reflexivity|].
      symmetry. apply Nat.ltb_ge. now rewrite frameBytes_length.
    + symmetry. apply orb_false_iff. now rewrite !Nat.eqb_neq.
Qed.

(** A frame of no pixels is answered with the empty list after an
    [IndexSizeError], and a frame of one pixel is captured into a buffer
    made for four. *)
Lemma processFrame_frame_size_unchecked_witness :
  (exists e,
      processFrame_try (sceneEnv 0 0) detector640x480
      = (Throw e, ObjectDetector.set_detectedObjects [] detector640x480)
      /\ processFrame (sceneEnv 0 0) detector640x480
         = (Normal [], ObjectDetector.set_detectedObjects [] detector640x480)
      /\ (ctx_drawImage (sceneEnv 0 0) 0%nat = None -> e = IndexSizeError))
  /\ (exists e,
      processFrame_try (sceneEnv 1280 960) detector640x480
      = (Throw e, ObjectDetector.set_detectedObjects [] detector640x480)
      /\ processFrame (sceneEnv 1280 960) detector640x480
         = (Normal [], ObjectDetector.set_detectedObjects [] detector640x480)
      /\ (ctx_drawImage (sceneEnv 1280 960) 0%nat = None ->
          ctx_getImageData_fault (sceneEnv 1280 960) = None ->
          Mat.isDeleted (Mat.create 480 640 4) = false ->
          e = RangeError))
  /\ captureCurrentFrame (sceneEnv 320 240)
       (ObjectDetector.set_detectedObjects [] detector640x480)
     = (Normal tt, afterCapture (sceneEnv 320 240) (Mat.create 480 640 4) detector640x480).
Proof.
  split; [|split].
  - apply (proj1 (proj2 processFrame_frame_size_unchecked)
             (sceneEnv 0 0) detector640x480).
    + reflexivity.
    + left. reflexivity.
  - apply (proj1 (proj2 (proj2 processFrame_frame_size_unchecked))
             (sceneEnv 1280 960) detector640x480 (Mat.create 480 640 4)).
    + reflexivity.
    + reflexivity.
    + apply Nat.ltb_lt. vm_compute. reflexivity.
  - apply (proj2 (proj2 (proj2 processFrame_frame_size_unchecked))
             (sceneEnv 320 240) detector640x480 (Mat.create 480 640 4)).
    + reflexivity.
    + reflexivity.
    + cbn [sceneEnv sceneEnvWith canvas_width]. discriminate.
    + cbn [sceneEnv sceneEnvWith canvas_height]. discriminate.
    + apply Nat.leb_le. vm_compute. reflexivity.
    + reflexivity.
    + reflexivity.
Defined.

(** ** Releasing the buffers *)

Lemma cleanup_new : cleanup ObjectDetector.new = (Normal tt, ObjectDetector.new).
Proof. reflexivity. Qed.

(** The instance after a [cleanup] that follows a successful [initialize]:
    the five objects are deleted and still referenced by the fields. *)
Lemma cleanup_after_initialize (env : Env) (videoWidth videoHeight : nat) this :
  initialize env videoWidth videoHeight ObjectDetector.new = (Normal true, this) ->
  cleanup this
  = (Normal tt,
     ObjectDetector.mk false []
       (Some (Mat.deleted (Mat.create videoHeight videoWidth 4)))
       (Some (Mat.deleted (Mat.create videoHeight videoWidth 1)))
       (Some (Mat.deleted Mat.empty))
       (Some (MatVector.deleted MatVector.empty))
       (Some (Mat.deleted Mat.empty))).
Proof.
  intros H. apply initialize_true in H. subst this. reflexivity.
Qed.

(** C9, as the code has it.  On an instance that was never initialized
    [cleanup] completes and changes nothing.  After a successful
    [initialize], a first [cleanup] completes and resets the flag, but the
    fields still refer to the deleted objects, so a second [cleanup] calls
    [delete()] on a deleted object and stops on the [BindingError] of the
    binding, at its first statement. *)
Theorem cleanup_twice_throws :
  cleanup ObjectDetector.new = (Normal tt, ObjectDetector.new)
  /\ (forall env videoWidth videoHeight this,
      initialize env videoWidth videoHeight ObjectDetector.new = (Normal true, this) ->
      exists released,
        cleanup this = (Normal tt, released)
        /\ ObjectDetector.isInitialized released = false
        /\ (exists src,
              ObjectDetector.src released = Some src /\ Mat.isDeleted src = true)
        /\ cleanup released = (Throw BindingError, released)).
Proof.
  split; [exact cleanup_new|].
  intros env videoWidth videoHeight this H.
  eexists. split; [exact (cleanup_after_initialize env videoWidth videoHeight this H)|].
  split; [reflexivity|]. split; [|reflexivity].
  eexists. split; reflexivity.
Qed.

Lemma cleanup_twice_throws_witness :
  exists released,
    cleanup detector640x480 = (Normal tt, released)
    /\ ObjectDetector.isInitialized released = false
    /\ (exists src,
          ObjectDetector.src released = Some src /\ Mat.isDeleted src = true)
    /\ cleanup released = (Throw BindingError, released).
Proof.
  apply (proj2 cleanup_twice_throws (sceneEnv 640 480) 640%nat 480%nat detector640x480).
  reflexivity.
Defined.

(** * Further properties *)

(** ** Labels *)

Ltac label_cases :=
  cbv [objectTypes.HUMAN objectTypes.FACE objectTypes.RECTANGULAR
       objectTypes.CIRCULAR objectTypes.SQUARE objectTypes.VERTICAL
       objectTypes.HORIZONTAL objectTypes.SMALL objectTypes.LARGE
       objectTypes.UNKNOWN].

Ltac label_goal :=
  repeat match goal with |- _ /\ _ => split end;
  label_cases;
  let Hl := fresh "Hl" in
  intros Hl; try discriminate Hl; clear Hl;
  repeat match goal with |- _ /\ _ => split end;
  assumption.

Lemma classifyObject_In (rect : Rect.t) (aspectRatio extent circularity area : Q) :
  In (classifyObject rect aspectRatio extent circularity area) classifierLabels.
Proof.
  unfold classifyObject, classifierLabels.
  destruct (isLikelyHuman _ _ _); [cbn; tauto|].
  destruct (circularity >. 0.7); [cbn; tauto|].
  destruct ((aspectRatio >=. 0.8) && (aspectRatio <=. 1.2)); [cbn; tauto|].
  destruct (aspectRatio >. 1.5); cbn [orb]; [cbn; tauto|].
  destruct (aspectRatio <. 0.67); [cbn; tauto|].
  destruct (area >. 50000); [cbn; tauto|].
  destruct (area <. 5000); cbn; tauto.
Qed.

Lemma postProcess_Forall (P : Detection.t -> Prop) (detectedObjects : list Detection.t) :
  Forall P detectedObjects -> Forall P (postProcess detectedObjects).
Proof.
  intros H. apply Forall_forall. intros d Hd. apply postProcess_incl in Hd.
  revert d Hd. now apply Forall_forall.
Qed.

Lemma analyzeLoop_Forall (P : Detection.t -> Prop) (contours : list Contour.t) :
  (forall contour, P (detectionOf contour)) -> Forall P (analyzeLoop contours []).
Proof.
  intros H. rewrite analyzeLoop_filter. cbn [app]. apply Forall_forall.
  intros d Hd. apply in_map_iff in Hd as (c & <- & _). apply H.
Qed.

(** Whatever holds of the detection built for any contour holds of every
    detection a frame returns. *)
Lemma processFrame_Forall (P : Detection.t -> Prop) :
  (forall contour, P (detectionOf contour)) ->
  forall env this,
    exists l this', processFrame env this = (Normal l, this') /\ Forall P l.
Proof.
  intros H env this.
  destruct (processFrame_cases env this) as (l & this' & E & Hcases).
  exists l, this'. split; [exact E|].
  destruct Hcases as [(_ & -> & _) | [(_ & e & _ & ->) | (_ & Htry)]];
    try constructor.
  apply processFrame_try_Normal in Htry as (dst & found & _ & -> & _).
  now apply postProcess_Forall, analyzeLoop_Forall.
Qed.

(** X1. The classifier only returns the eight labels it has a [return] for:
    never the face label and never the unknown label; so no detection a
    frame returns carries one of those two. *)
Theorem classifier_never_face_or_unknown :
  (forall rect aspectRatio extent circularity area,
      In (classifyObject rect aspectRatio extent circularity area) classifierLabels
      /\ classifyObject rect aspectRatio extent circularity area <> objectTypes.FACE
      /\ classifyObject rect aspectRatio extent circularity area <> objectTypes.UNKNOWN)
  /\ (forall env this,
      exists l this',
        processFrame env this = (Normal l, this')
        /\ Forall (fun d => hasClassifierLabel d
                            /\ Detection.type d <> objectTypes.FACE
                            /\ Detection.type d <> objectTypes.UNKNOWN) l).
Proof.
  assert (Hlabels : forall t, In t classifierLabels ->
                              t <> objectTypes.FACE /\ t <> objectTypes.UNKNOWN).
  { intros t Ht. unfold classifierLabels in Ht. cbn [In] in Ht.
    revert Ht. label_cases. intros Ht.
    repeat (destruct Ht as [<-|Ht]; [split; discriminate|]). destruct Ht. }
  split.
  - intros. pose proof (classifyObject_In rect aspectRatio extent circularity area) as Hin.
    split; [exact Hin | exact (Hlabels _ Hin)].
  - apply processFrame_Forall. intros contour.
    assert (Hin : hasClassifierLabel (detectionOf contour)) by apply classifyObject_In.
    split; [exact Hin | exact (Hlabels _ Hin)].
Qed.

Lemma classifyObject_cases :
  forall rect aspectRatio extent circularity area,
    let label := classifyObject rect aspectRatio extent circularity area in
    let person := 0.3 <= aspectRatio <= 0.8 /\ 10000 <= area <= 200000
                  /\ (100 <= Rect.height rect)%Z in
    let between := 0.67 <= aspectRatio < 0.8 \/ 1.2 < aspectRatio <= 1.5 in
    (label = objectTypes.HUMAN -> person)
    /\ (label = objectTypes.CIRCULAR -> ~ person /\ 0.7 < circularity)
    /\ (label = objectTypes.SQUARE ->
        ~ person /\ circularity <= 0.7 /\ 0.8 <= aspectRatio <= 1.2)
    /\ (label = objectTypes.HORIZONTAL ->
        ~ person /\ circularity <= 0.7 /\ 1.5 < aspectRatio)
    /\ (label = objectTypes.VERTICAL ->
        ~ person /\ circularity <= 0.7 /\ aspectRatio < 0.67)
    /\ (label = objectTypes.LARGE ->
        ~ person /\ circularity <= 0.7 /\ between /\ 50000 < area)
    /\ (label = objectTypes.SMALL ->
        ~ person /\ circularity <= 0.7 /\ between /\ area < 5000)
    /\ (label = objectTypes.RECTANGULAR ->
        ~ person /\ circularity <= 0.7 /\ between /\ 5000 <= area <= 50000).
Proof.
  intros rect aspectRatio extent circularity area. cbv zeta.
  set (person := 0.3 <= aspectRatio <= 0.8 /\ 10000 <= area <= 200000
                 /\ (100 <= Rect.height rect)%Z).
  set (between := 0.67 <= aspectRatio < 0.8 \/ 1.2 < aspectRatio <= 1.5).
  unfold classifyObject.
  rewrite (isLikelyHuman_personRule rect aspectRatio extent circularity area).
  destruct (personRule _) eqn:Ep.
  { apply personRule_true in Ep. cbn in Ep. label_goal. }
  assert (Hp : ~ person).
  { intros H. apply not_true_iff_false in Ep. apply Ep, personRule_true. exact H. }
  destruct (circularity >. 0.7) eqn:Ec.
  { apply gt_true in Ec. label_goal. }
  apply gt_false in Ec.
  destruct ((aspectRatio >=. 0.8) && (aspectRatio <=. 1.2)) eqn:Es.
  { rewrite ge_le in Es. apply within_true in Es. destruct Es. label_goal. }
  assert (Hs : aspectRatio < 0.8 \/ 1.2 < aspectRatio).
  { rewrite ge_le in Es. apply andb_false_iff in Es.
    destruct Es as [Es|Es]; [left | right].
    - apply lt_true. rewrite lt_negb_ge. now rewrite Es.
    - apply gt_true. rewrite gt_negb_le. now rewrite Es. }
  destruct (aspectRatio >. 1.5) eqn:Eh; cbn [orb].
  { apply gt_true in Eh. label_goal. }
  apply gt_false in Eh.
  destruct (aspectRatio <. 0.67) eqn:Ev.
  { apply lt_true in Ev. label_goal. }
  apply lt_false in Ev.
  assert (Hb : between).
  { unfold between. destruct Hs; [left | right]; split; assumption. }
  destruct (area >. 50000) eqn:El.
  { apply gt_true in El. label_goal. }
  apply gt_false in El.
  destruct (area <. 5000) eqn:Em.
  { apply lt_true in Em. label_goal. }
  apply lt_false in Em.
  label_goal.
Qed.

(** X2. Each label tells what was measured.  A person has the three person
    bounds.  Every other label has missed them; circular means circularity
    above 0.7, and the remaining labels mean circularity at most 0.7 with:
    square, an aspect ratio in [0.8, 1.2]; horizontal, above 1.5; vertical,
    below 0.67; large, small and rectangular, an aspect ratio in [0.67, 0.8)
    or (1.2, 1.5] and an area above 50000, below 5000, and in between. *)
Theorem classifyObject_label_sound :
  forall rect aspectRatio extent circularity area,
    let label := classifyObject rect aspectRatio extent circularity area in
    let person := 0.3 <= aspectRatio <= 0.8 /\ 10000 <= area <= 200000
                  /\ (100 <= Rect.height rect)%Z in
    let between := 0.67 <= aspectRatio < 0.8 \/ 1.2 < aspectRatio <= 1.5 in
    (label = objectTypes.HUMAN -> person)
    /\ (label = objectTypes.CIRCULAR -> ~ person /\ 0.7 < circularity)
    /\ (label = objectTypes.SQUARE ->
        ~ person /\ circularity <= 0.7 /\ 0.8 <= aspectRatio <= 1.2)
    /\ (label = objectTypes.HORIZONTAL ->
        ~ person /\ circularity <= 0.7 /\ 1.5 < aspectRatio)
    /\ (label = objectTypes.VERTICAL ->
        ~ person /\ circularity <= 0.7 /\ aspectRatio < 0.67)
    /\ (label = objectTypes.LARGE ->
        ~ person /\ circularity <= 0.7 /\ between /\ 50000 < area)
    /\ (label = objectTypes.SMALL ->
        ~ person /\ circularity <= 0.7 /\ between /\ area < 5000)
    /\ (label = objectTypes.RECTANGULAR ->
        ~ person /\ circularity <= 0.7 /\ between /\ 5000 <= area <= 50000).
Proof. exact classifyObject_cases. Qed.

(** The standing figure is labelled a person, so it has the person bounds. *)
Lemma classifyObject_label_sound_witness :
  0.3 <= 0.4 <= 0.8 /\ 10000 <= 15000 <= 200000 /\ (100 <= 250)%Z.
Proof.
  apply (proj1 (classifyObject_label_sound (Rect.mk 40 100 100 250) 0.4 0.6 0.38 15000)).
  reflexivity.
Defined.


(** ** Scores by label *)

Lemma clamp_ge (lo v : Q) : lo <= 0.9 -> lo <= v -> lo <= Qmax 0.1 (Qmin 0.9 v).
Proof.
  intros H1 H2. apply Qle_trans with (Qmin 0.9 v).
  - now apply Q.min_glb.
  - apply Q.le_max_r.
Qed.

Lemma clamp_gt (lo v : Q) : lo < 0.9 -> lo < v -> lo < Qmax 0.1 (Qmin 0.9 v).
Proof.
  intros H1 H2. apply Qlt_le_trans with (Qmin 0.9 v).
  - now apply Q.min_glb_lt.
  - apply Q.le_max_r.
Qed.

Lemma clamp_le (hi v : Q) : 0.1 <= hi -> v <= hi -> Qmax 0.1 (Qmin 0.9 v) <= hi.
Proof.
  intros H1 H2. apply Q.max_lub; [exact H1|].
  apply Qle_trans with v; [apply Q.le_min_r | exact H2].
Qed.

(** X3. The classifier and the scorer together: a person is scored exactly
    0.8 or 0.6, a circular object above 0.7 (and at most 0.9), a square
    between 0.8 and 0.9, and every other label at most 0.7. *)
Theorem confidence_by_label :
  forall rect aspectRatio extent circularity area,
    let label := classifyObject rect aspectRatio extent circularity area in
    let confidence := calculateConfidence label aspectRatio circularity extent in
    (label = objectTypes.HUMAN -> confidence = 0.8 \/ confidence = 0.6)
    /\ (label = objectTypes.CIRCULAR -> 0.7 < confidence <= 0.9)
    /\ (label = objectTypes.SQUARE -> 0.8 <= confidence <= 0.9)
    /\ (label <> objectTypes.HUMAN ->
        label <> objectTypes.CIRCULAR ->
        label <> objectTypes.SQUARE ->
        0.1 <= confidence <= 0.7).
Proof.
  intros rect aspectRatio extent circularity area. cbv zeta.
  pose proof (classifyObject_cases rect aspectRatio extent circularity area) as Hc.
  cbv zeta in Hc. destruct Hc as (_ & Hcirc & Hsq & _).
  set (label := classifyObject rect aspectRatio extent circularity area) in *.
  split; [|split; [|split]].
  - intros ->. unfold calculateConfidence, switchConfidence.
    rewrite String.eqb_refl.
    destruct ((aspectRatio >=. 0.4) && (aspectRatio <=. 0.6)); [left | right];
      reflexivity.
  - intros Hl. destruct (Hcirc Hl) as (_ & Hgt). rewrite Hl.
    split; [|apply calculateConfidence_bounds].
    unfold calculateConfidence, switchConfidence, Js.Math_max, Js.Math_min.
    cbn [String.eqb objectTypes.CIRCULAR objectTypes.HUMAN Ascii.eqb Bool.eqb].
    apply clamp_gt; [reflexivity|]. apply Q.min_glb_lt; [reflexivity | exact Hgt].
  - intros Hl. destruct (Hsq Hl) as (_ & _ & Hlo & Hhi). rewrite Hl.
    split; [|apply calculateConfidence_bounds].
    unfold calculateConfidence, switchConfidence, Js.Math_max, Js.Math_min, Js.Math_abs.
    cbn [String.eqb objectTypes.SQUARE objectTypes.CIRCULAR objectTypes.HUMAN
         Ascii.eqb Bool.eqb].
    apply clamp_ge; [discriminate|].
    assert (Habs : Qabs (aspectRatio - 1.0) <= 0.2).
    { apply Qabs_Qle_condition. split; lra. }
    lra.
  - intros Hh Hcl Hs. split; [apply calculateConfidence_bounds|].
    unfold calculateConfidence, switchConfidence, Js.Math_max, Js.Math_min.
    apply String.eqb_neq in Hh, Hcl, Hs. rewrite Hh, Hcl, Hs.
    apply clamp_le; [discriminate|]. apply Q.le_min_l.
Qed.

(** The disc is labelled circular, so its confidence is above 0.7; the
    standing figure is a person. *)
Lemma confidence_by_label_witness :
  0.7 < Detection.confidence (detectionOf discContour) <= 0.9
  /\ (Detection.confidence (detectionOf figureContour) = 0.8
      \/ Detection.confidence (detectionOf figureContour) = 0.6).
Proof.
  split.
  - apply (proj1 (proj2 (confidence_by_label
                           (Contour.boundingRect discContour)
                           (Detection.aspectRatio (detectionOf discContour))
                           (Detection.extent (detectionOf discContour))
                           (Detection.circularity (detectionOf discContour))
                           (Contour.contourArea discContour)))).
    reflexivity.
  - apply (proj1 (confidence_by_label
                    (Contour.boundingRect figureContour)
                    (Detection.aspectRatio (detectionOf figureContour))
                    (Detection.extent (detectionOf figureContour))
                    (Detection.circularity (detectionOf figureContour))
                    (Contour.contourArea figureContour))).
    reflexivity.
Defined.

(** ** The overlap measure *)

Lemma overlapLength_sym (a wa b wb : Z) : overlapLength a wa b wb = overlapLength b wb a wa.
Proof. unfold overlapLength. now rewrite Z.min_comm, (Z.max_comm a b). Qed.

Lemma IoU_sym (r1 r2 : Rect.t) : IoU r1 r2 = IoU r2 r1.
Proof.
  unfold IoU, intersectionArea.
  rewrite (overlapLength_sym (Rect.x r1)), (overlapLength_sym (Rect.y r1)).
  now rewrite (Z.add_comm (boxArea r1)).
Qed.

Lemma intersectionArea_bounds (r1 r2 : Rect.t) :
  intersectionArea r1 r2 <> 0%Z ->
  (0 < intersectionArea r1 r2 <= boxArea r1)%Z
  /\ (intersectionArea r1 r2 <= boxArea r2)%Z.
Proof.
  unfold intersectionArea, overlapLength, boxArea.
  destruct r1 as [xa ya wa ha], r2 as [xb yb wb hb]; cbn [Rect.x Rect.y Rect.width Rect.height].
  intros H.
  assert (Hx : (0 < Z.min (xa + wa) (xb + wb) - Z.max xa xb)%Z).
  { destruct (Z.max_spec 0 (Z.min (xa + wa) (xb + wb) - Z.max xa xb)) as [[? E]|[? E]];
      [lia|]. rewrite E in H. lia. }
  assert (Hy : (0 < Z.min (ya + ha) (yb + hb) - Z.max ya yb)%Z).
  { destruct (Z.max_spec 0 (Z.min (ya + ha) (yb + hb) - Z.max ya yb)) as [[? E]|[? E]];
      [lia|]. rewrite E in H. lia. }
  rewrite !Z.max_r by lia.
  set (ix := (Z.min (xa + wa) (xb + wb) - Z.max xa xb)%Z) in *.
  set (iy := (Z.min (ya + ha) (yb + hb) - Z.max ya yb)%Z) in *.
  assert ((ix <= wa)%Z /\ (ix <= wb)%Z /\ (iy <= ha)%Z /\ (iy <= hb)%Z) as (?&?&?&?)
    by (subst ix iy; lia).
  repeat split.
  - nia.
  - apply Z.mul_le_mono_nonneg; lia.
  - apply Z.mul_le_mono_nonneg; lia.
Qed.

Lemma IoU_range (r1 r2 : Rect.t) : 0 <= IoU r1 r2 <= 1.
Proof.
  unfold IoU. destruct (intersectionArea r1 r2 =? 0)%Z eqn:E.
  - split; [apply Qle_refl | discriminate].
  - apply Z.eqb_neq in E.
    destruct (intersectionArea_bounds r1 r2 E) as ((Hpos & H1) & H2).
    assert (Hu : 0 < inject_Z (boxArea r1 + boxArea r2 - intersectionArea r1 r2)).
    { change 0 with (inject_Z 0). rewrite <- Zlt_Qlt. lia. }
    split.
    + apply Qle_shift_div_l; [exact Hu|]. rewrite Qmult_0_l.
      change 0 with (inject_Z 0). rewrite <- Zle_Qle. lia.
    + apply Qle_shift_div_r; [exact Hu|]. rewrite Qmult_1_l.
      rewrite <- Zle_Qle. lia.
Qed.

Lemma IoU_self (r : Rect.t) :
  (0 < Rect.width r)%Z -> (0 < Rect.height r)%Z -> IoU r r == 1.
Proof.
  intros Hw Hh. unfold IoU, intersectionArea, overlapLength, boxArea.
  rewrite !Z.min_id, !Z.max_id.
  replace (Rect.x r + Rect.width r - Rect.x r)%Z with (Rect.width r) by lia.
  replace (Rect.y r + Rect.height r - Rect.y r)%Z with (Rect.height r) by lia.
  rewrite !Z.max_r by lia.
  destruct (_ =? 0)%Z eqn:E; [apply Z.eqb_eq in E; nia|].
  replace (Rect.width r * Rect.height r + Rect.width r * Rect.height r
           - Rect.width r * Rect.height r)%Z
    with (Rect.width r * Rect.height r)%Z by lia.
  apply Qmult_inv_r. change 0 with (inject_Z 0). rewrite inject_Z_injective. nia.
Qed.

(** Boxes that share no area: one lies to the left of, or above, the other
    (touching sides included). *)
Lemma IoU_disjoint (r1 r2 : Rect.t) :
  (Rect.x r1 + Rect.width r1 <= Rect.x r2)%Z
  \/ (Rect.x r2 + Rect.width r2 <= Rect.x r1)%Z
  \/ (Rect.y r1 + Rect.height r1 <= Rect.y r2)%Z
  \/ (Rect.y r2 + Rect.height r2 <= Rect.y r1)%Z ->
  IoU r1 r2 = 0.
Proof.
  intros H. unfold IoU.
  replace (intersectionArea r1 r2) with 0%Z; [reflexivity|].
  unfold intersectionArea, overlapLength.
  destruct H as [H|[H|[H|H]]].
  - rewrite (Z.max_l 0 (Z.min _ _ - Z.max (Rect.x r1) _)) by lia. reflexivity.
  - rewrite (Z.max_l 0 (Z.min _ _ - Z.max (Rect.x r1) _)) by lia. reflexivity.
  - rewrite (Z.max_l 0 (Z.min _ _ - Z.max (Rect.y r1) _)) by lia. lia.
  - rewrite (Z.max_l 0 (Z.min _ _ - Z.max (Rect.y r1) _)) by lia. lia.
Qed.

(** X4. The overlap of two boxes does not depend on their order, lies
    between 0 and 1, is 0 for boxes that lie side by side or one above the
    other (touching included), and is 1 for a box with positive sides and
    itself. *)
Theorem calculateOverlap_measure :
  (forall r1 r2, calculateOverlap r1 r2 = calculateOverlap r2 r1)
  /\ (forall r1 r2, 0 <= calculateOverlap r1 r2 <= 1)
  /\ (forall r1 r2,
      (Rect.x r1 + Rect.width r1 <= Rect.x r2)%Z
      \/ (Rect.x r2 + Rect.width r2 <= Rect.x r1)%Z
      \/ (Rect.y r1 + Rect.height r1 <= Rect.y r2)%Z
      \/ (Rect.y r2 + Rect.height r2 <= Rect.y r1)%Z ->
      calculateOverlap r1 r2 = 0)
  /\ (forall r,
      (0 < Rect.width r)%Z -> (0 < Rect.height r)%Z -> calculateOverlap r r == 1).
Proof.
  split; [|split; [|split]]; intros; rewrite ?calculateOverlap_IoU.
  - apply IoU_sym.
  - apply IoU_range.
  - now apply IoU_disjoint.
  - now apply IoU_self.
Qed.

Lemma calculateOverlap_measure_witness :
  calculateOverlap (Rect.mk 0 0 100 100) (Rect.mk 100 0 50 50) = 0
  /\ calculateOverlap (Rect.mk 40 100 100 250) (Rect.mk 40 100 100 250) == 1.
Proof.
  split.
  - apply (proj1 (proj2 (proj2 calculateOverlap_measure))
             (Rect.mk 0 0 100 100) (Rect.mk 100 0 50 50)).
    left. cbn. lia.
  - apply (proj2 (proj2 (proj2 calculateOverlap_measure)) (Rect.mk 40 100 100 250));
      cbn; lia.
Defined.

(** ** Survivors of the suppression *)

Section OrderedPairs.
Context {A : Type} (R : A -> A -> Prop).

Lemma FOP_app (l1 l2 : list A) :
  ForallOrdPairs R (l1 ++ l2) <->
  ForallOrdPairs R l1 /\ ForallOrdPairs R l2
  /\ Forall (fun a => Forall (R a) l2) l1.
Proof.
  induction l1 as [|a l1 IH]; cbn [app].
  - split; [intros H; repeat split; [constructor | exact H | constructor] | tauto].
  - split.
    + intros H. inversion H as [|? ? Hall Hrest]; subst.
      apply IH in Hrest as (H1 & H2 & H12).
      apply Forall_app in Hall as (Ha1 & Ha2).
      repeat split; [now constructor | exact H2 | now constructor].
    + intros (H1 & H2 & H12).
      inversion H1 as [|? ? Ha1 Hrest]; subst.
      inversion H12 as [|? ? Ha2 H12']; subst.
      constructor; [apply Forall_app; now split | apply IH; now repeat split].
Qed.

Lemma FOP_firstn (l : list A) :
  ForallOrdPairs R l -> forall n, ForallOrdPairs R (firstn n l).
Proof.
  induction 1 as [|a l Hall Hrest IH]; intros [|n]; cbn [firstn]; try constructor.
  - apply Forall_forall. intros b Hb. apply In_firstn in Hb.
    revert b Hb. now apply Forall_forall.
  - apply IH.
Qed.

Lemma FOP_Permutation (l l' : list A) :
  (forall a b, R a b -> R b a) ->
  Permutation l l' -> ForallOrdPairs R l -> ForallOrdPairs R l'.
Proof.
  intros Hsym. induction 1 as [|a l l' Hperm IH|a b l|l l' l'' _ IH1 _ IH2]; intros H.
  - exact H.
  - inversion H as [|? ? Hall Hrest]; subst.
    constructor; [exact (Permutation_Forall Hperm Hall) | now apply IH].
  - inversion H as [|? ? Hall Hrest]; subst.
    inversion Hrest as [|? ? Hall' Hrest']; subst.
    inversion Hall as [|? ? Hba Hall'']; subst.
    constructor; [constructor; [now apply Hsym | exact Hall']|].
    now constructor.
  - auto.
Qed.

End OrderedPairs.

Lemma keepAgainst_true (candidate : Detection.t) (filtered : list Detection.t) :
  keepAgainst candidate filtered = true
  <-> Forall (fun accepted => apart accepted candidate) filtered.
Proof.
  induction filtered as [|f rest IH]; cbn [keepAgainst].
  - split; [constructor | reflexivity].
  - destruct (calculateOverlap _ _ >. overlapThreshold) eqn:E.
    + split; [discriminate|]. intros H. inversion H as [|? ? Hf _]; subst.
      apply gt_true in E. unfold apart in Hf. lra.
    + rewrite IH. apply gt_false in E. split.
      * intros H. now constructor.
      * intros H. now inversion H.
Qed.

Lemma apart_sym (a b : Detection.t) : apart a b -> apart b a.
Proof.
  unfold apart. now rewrite !calculateOverlap_IoU, (IoU_sym (Detection.rect a)).
Qed.

Lemma removeOverlappingLoop_apart (detections : list Detection.t) :
  forall filtered,
    ForallOrdPairs apart filtered ->
    ForallOrdPairs apart (removeOverlappingLoop detections filtered).
Proof.
  induction detections as [|d rest IH]; intros filtered H; cbn [removeOverlappingLoop].
  - exact H.
  - destruct (keepAgainst d filtered) eqn:E; [|now apply IH].
    apply IH. apply FOP_app. split; [exact H|]. split; [repeat constructor|].
    apply keepAgainst_true in E. eapply Forall_impl; [|exact E].
    intros a Ha. now constructor.
Qed.

Lemma removeOverlappingLoop_id (detections : list Detection.t) :
  forall filtered,
    ForallOrdPairs apart (filtered ++ detections) ->
    removeOverlappingLoop detections filtered = filtered ++ detections.
Proof.
  induction detections as [|d rest IH]; intros filtered H; cbn [removeOverlappingLoop].
  - now rewrite app_nil_r.
  - replace (filtered ++ d :: rest) with ((filtered ++ [d]) ++ rest) in *
      by (now rewrite <- app_assoc).
    replace (keepAgainst d filtered) with true; [now apply IH|].
    symmetry. apply keepAgainst_true.
    apply FOP_app in H as (H & _). apply FOP_app in H as (_ & _ & H).
    eapply Forall_impl; [|exact H]. intros a Ha. now inversion Ha.
Qed.

Lemma removeOverlappingDetections_apart (detections : list Detection.t) :
  ForallOrdPairs apart (removeOverlappingDetections detections).
Proof. apply removeOverlappingLoop_apart. constructor. Qed.

Lemma removeOverlappingDetections_id (detections : list Detection.t) :
  ForallOrdPairs apart detections ->
  removeOverlappingDetections detections = detections.
Proof. intros H. now apply (removeOverlappingLoop_id detections []). Qed.

(** X5. Among the survivors of the suppression no detection overlaps an
    earlier one by more than 0.5; a list that already has this property is
    returned unchanged, so suppressing twice changes nothing more. *)
Theorem removeOverlappingDetections_idempotent :
  (forall detections,
      ForallOrdPairs apart (removeOverlappingDetections detections))
  /\ (forall detections,
      ForallOrdPairs apart detections ->
      removeOverlappingDetections detections = detections)
  /\ (forall detections,
      removeOverlappingDetections (removeOverlappingDetections detections)
      = removeOverlappingDetections detections).
Proof.
  split; [exact removeOverlappingDetections_apart|].
  split; [exact removeOverlappingDetections_id|].
  intros. apply removeOverlappingDetections_id, removeOverlappingDetections_apart.
Qed.

Lemma removeOverlappingDetections_idempotent_witness :
  removeOverlappingDetections [fullBox; halfBox] = [fullBox; halfBox].
Proof.
  apply (proj1 (proj2 removeOverlappingDetections_idempotent) [fullBox; halfBox]).
  constructor; [|repeat constructor].
  constructor; [|constructor]. vm_compute. discriminate.
Defined.

(** X6. A detection whose box, with positive sides, is already the box of an
    accepted detection is never accepted: the survivors hold no two
    detections with the same box of positive sides. *)
Theorem duplicate_boxes_suppressed :
  (forall candidate accepted a,
      In a accepted ->
      Detection.rect a = Detection.rect candidate ->
      (0 < Rect.width (Detection.rect candidate))%Z ->
      (0 < Rect.height (Detection.rect candidate))%Z ->
      keepAgainst candidate accepted = false)
  /\ (forall detections,
      ForallOrdPairs
        (fun earlier later =>
           Detection.rect earlier = Detection.rect later ->
           (0 < Rect.width (Detection.rect later))%Z ->
           (0 < Rect.height (Detection.rect later))%Z ->
           False)
        (removeOverlappingDetections detections)).
Proof.
  assert (Hself : forall a b,
             Detection.rect a = Detection.rect b ->
             (0 < Rect.width (Detection.rect b))%Z ->
             (0 < Rect.height (Detection.rect b))%Z ->
             ~ apart a b).
  { intros a b E Hw Hh. unfold apart, overlapThreshold.
    rewrite E, calculateOverlap_IoU, (IoU_self _ Hw Hh).
    apply Qlt_not_le. reflexivity. }
  split.
  - intros candidate accepted a Hin E Hw Hh.
    apply not_true_iff_false. intros Hkeep. apply keepAgainst_true in Hkeep.
    apply (Hself a candidate E Hw Hh).
    exact (proj1 (Forall_forall _ _) Hkeep a Hin).
  - intros detections.
    pose proof (removeOverlappingDetections_apart detections) as H.
    induction H as [|a l Hall Hrest IH]; constructor; [|exact IH].
    eapply Forall_impl; [|exact Hall].
    intros b Hab E Hw Hh. exact (Hself a b E Hw Hh Hab).
Qed.

Lemma duplicate_boxes_suppressed_witness :
  keepAgainst (boxDetection (Rect.mk 0 0 100 100) 0.9) [halfBox; fullBox] = false.
Proof.
  apply (proj1 duplicate_boxes_suppressed
           (boxDetection (Rect.mk 0 0 100 100) 0.9) [halfBox; fullBox] fullBox).
  - right; left; reflexivity.
  - reflexivity.
  - cbn; lia.
  - cbn; lia.
Defined.

(** ** The ranking *)

Lemma insertBy_head (a : Detection.t) (l : list Detection.t) :
  Forall (confidenceGe a) l -> insertBy byConfidence a l = a :: l.
Proof.
  intros H. destruct l as [|b rest]; [reflexivity|]. cbn [insertBy].
  inversion H as [|? ? Hab _]; subst.
  apply byConfidence_not_gt in Hab. now rewrite Hab.
Qed.

Lemma Array_sort_sorted_id (l : list Detection.t) :
  StronglySorted confidenceGe l -> Array_sort byConfidence l = l.
Proof.
  induction 1 as [|a rest Hsorted IH Hall]; cbn [Array_sort fold_right].
  - reflexivity.
  - fold (Array_sort byConfidence rest). rewrite IH. now apply insertBy_head.
Qed.

Lemma insertBy_filter (c : Q) (a : Detection.t) (l : list Detection.t) :
  filter (hasConfidence c) (insertBy byConfidence a l)
  = filter (hasConfidence c) (a :: l).
Proof.
  induction l as [|b rest IH]; cbn [insertBy]; [reflexivity|].
  destruct (byConfidence a b >. 0) eqn:E; [|reflexivity].
  apply byConfidence_gt in E.
  cbn [filter] in *. rewrite IH.
  destruct (hasConfidence c a) eqn:Ea, (hasConfidence c b) eqn:Eb; try reflexivity.
  unfold hasConfidence in Ea, Eb. apply Qeq_bool_iff in Ea, Eb.
  rewrite Ea, Eb in E. exfalso. exact (Qlt_irrefl c E).
Qed.

Lemma Array_sort_filter (c : Q) (l : list Detection.t) :
  filter (hasConfidence c) (Array_sort byConfidence l) = filter (hasConfidence c) l.
Proof.
  induction l as [|a rest IH]; cbn [Array_sort fold_right]; [reflexivity|].
  fold (Array_sort byConfidence rest). rewrite insertBy_filter.
  cbn [filter]. now rewrite IH.
Qed.

(** X7. The confidence sort is stable and leaves a ranked list alone: the
    detections of any one confidence come out in the order they went in, and
    a list already in descending order of confidence is returned as it is. *)
Theorem Array_sort_stable :
  (forall c detections,
      filter (hasConfidence c) (Array_sort byConfidence detections)
      = filter (hasConfidence c) detections)
  /\ (forall detections,
      StronglySorted confidenceGe detections ->
      Array_sort byConfidence detections = detections).
Proof. split; [exact Array_sort_filter | exact Array_sort_sorted_id]. Qed.

Lemma Array_sort_stable_witness :
  Array_sort byConfidence [halfBox; box51; fullBox] = [halfBox; box51; fullBox].
Proof.
  apply (proj2 Array_sort_stable [halfBox; box51; fullBox]).
  repeat constructor; vm_compute; discriminate.
Defined.

(** ** Post-processing *)

Lemma postProcess_apart (detectedObjects : list Detection.t) :
  ForallOrdPairs apart (postProcess detectedObjects).
Proof.
  rewrite postProcess_eq. apply FOP_firstn.
  apply (FOP_Permutation apart _ _ apart_sym
           (Permutation_sym (Array_sort_perm byConfidence _))).
  apply removeOverlappingDetections_apart.
Qed.

Lemma postProcess_id (detectedObjects : list Detection.t) :
  ForallOrdPairs apart detectedObjects ->
  StronglySorted confidenceGe detectedObjects ->
  (List.length detectedObjects <= 10)%nat ->
  postProcess detectedObjects = detectedObjects.
Proof.
  intros Hapart Hsorted Hlen. rewrite postProcess_eq.
  rewrite (removeOverlappingDetections_id _ Hapart).
  rewrite (Array_sort_sorted_id _ Hsorted).
  now apply firstn_all2.
Qed.

(** X8. Post-processing is idempotent: what it returns has no two
    detections overlapping by more than 0.5, is ranked and has at most ten
    entries, and post-processing such a list again returns it unchanged. *)
Theorem postProcess_idempotent :
  forall detectedObjects,
    ForallOrdPairs apart (postProcess detectedObjects)
    /\ postProcess (postProcess detectedObjects) = postProcess detectedObjects.
Proof.
  intros detectedObjects. split; [apply postProcess_apart|].
  apply postProcess_id.
  - apply postProcess_apart.
  - apply postProcess_sorted.
  - apply postProcess_length.
Qed.

Lemma sorted_firstn_skipn (l : list Detection.t) (n : nat) :
  StronglySorted confidenceGe l ->
  Forall (fun kept => Forall (confidenceGe kept) (skipn n l)) (firstn n l).
Proof.
  intros H. revert n.
  induction H as [|a rest Hsorted IH Hall]; intros [|n]; cbn [firstn skipn];
    try constructor.
  - apply Forall_forall. intros b Hb.
    assert (Hin : In b rest).
    { rewrite <- (firstn_skipn n rest). apply in_or_app. now right. }
    exact (proj1 (Forall_forall _ _) Hall b Hin).
  - apply IH.
Qed.



(** ** Allocation and release *)

Lemma initialize_eq (env : Env) (videoWidth videoHeight : nat) this :
  exists this',
    initialize env videoWidth videoHeight this
    = (Normal (allocationsSucceed env), this')
    /\ (allocationsSucceed env = true -> this' = initialized videoWidth videoHeight this)
    /\ (allocationsSucceed env = false ->
        ObjectDetector.isInitialized this' = ObjectDetector.isInitialized this)
    /\ ObjectDetector.detectedObjects this' = ObjectDetector.detectedObjects this.
Proof.
  unfold initialize, try_catch, new_Mat, new_MatVector, bind, raise_if, modify, ret,
    throw, allocationsSucceed.
  cbn [seq forallb].
  repeat (destruct (cv_new_fault env _);
          [eexists; split; [reflexivity|]; cbn;
           split; [discriminate | split; [reflexivity | reflexivity]]|]).
  eexists. split; [reflexivity|]. cbn.
  split; [reflexivity | split; [discriminate | reflexivity]].
Qed.

(** X10. [initialize] never throws.  It returns [true] exactly when the
    five constructor calls succeed, and then, whatever the instance was (new,
    in use, released), it holds five new buffers of the given size and is
    marked initialized.  When it returns [false] the flag is as it was
    before the call: a detector that was initialized stays marked
    initialized.  The detections are never touched. *)
Theorem initialize_outcome :
  forall env videoWidth videoHeight this,
    exists this',
      initialize env videoWidth videoHeight this
      = (Normal (allocationsSucceed env), this')
      /\ (allocationsSucceed env = true ->
          this' = initialized videoWidth videoHeight this)
      /\ (allocationsSucceed env = false ->
          ObjectDetector.isInitialized this' = ObjectDetector.isInitialized this)
      /\ ObjectDetector.detectedObjects this' = ObjectDetector.detectedObjects this.
Proof. exact initialize_eq. Qed.

Lemma cleanup_eq this :
  cleanup this
  = if buffersUsable this then (Normal tt, released this)
    else (Throw BindingError, snd (cleanup this)).
Proof.
  destruct this as [flag objs src dst gray contours hierarchy].
  unfold buffersUsable, matUsable, matVectorUsable.
  cbn [ObjectDetector.src ObjectDetector.dst ObjectDetector.gray
       ObjectDetector.contours ObjectDetector.hierarchy].
  destruct src as [[? ? ? ? []]|], dst as [[? ? ? ? []]|], gray as [[? ? ? ? []]|],
    contours as [[? []]|], hierarchy as [[? ? ? ? []]|]; reflexivity.
Qed.

Lemma cleanup_keeps this :
  ObjectDetector.detectedObjects (snd (cleanup this))
  = ObjectDetector.detectedObjects this
  /\ (buffersUsable this = false ->
      ObjectDetector.isInitialized (snd (cleanup this))
      = ObjectDetector.isInitialized this).
Proof.
  destruct this as [flag objs src dst gray contours hierarchy].
  unfold buffersUsable, matUsable, matVectorUsable.
  cbn [ObjectDetector.src ObjectDetector.dst ObjectDetector.gray
       ObjectDetector.contours ObjectDetector.hierarchy].
  destruct src as [[? ? ? ? []]|], dst as [[? ? ? ? []]|], gray as [[? ? ? ? []]|],
    contours as [[? []]|], hierarchy as [[? ? ? ? []]|];
    (split; [reflexivity | try discriminate; reflexivity]).
Qed.

(** X11. [cleanup] completes exactly when none of the five fields refers to
    an object that is already deleted; it then deletes every object the
    fields refer to, resets the flag and keeps the fields and the detections.
    Otherwise it stops on a [BindingError] and leaves the flag as it was.
    In both cases [this.detectedObjects] is what it was. *)
Theorem cleanup_outcome :
  forall this,
    (buffersUsable this = true -> cleanup this = (Normal tt, released this))
    /\ (buffersUsable this = false ->
        exists this',
          cleanup this = (Throw BindingError, this')
          /\ ObjectDetector.isInitialized this' = ObjectDetector.isInitialized this)
    /\ ObjectDetector.detectedObjects (snd (cleanup this))
       = ObjectDetector.detectedObjects this.
Proof.
  intros this. split; [|split].
  - intros H. now rewrite cleanup_eq, H.
  - intros H. exists (snd (cleanup this)). split.
    + rewrite cleanup_eq at 1. now rewrite H.
    + now apply cleanup_keeps.
  - apply cleanup_keeps.
Qed.

Lemma initialize_outcome_witness :
  snd (initialize (sceneEnv 640 480) 640 480 ObjectDetector.new)
  = initialized 640 480 ObjectDetector.new.
Proof.
  destruct (initialize_outcome (sceneEnv 640 480) 640 480 ObjectDetector.new)
    as (this' & E & Htrue & _).
  rewrite E. cbn [snd]. apply Htrue. reflexivity.
Defined.

Lemma cleanup_outcome_witness :
  cleanup ObjectDetector.new = (Normal tt, released ObjectDetector.new)
  /\ exists this',
      cleanup (released detector640x480) = (Throw BindingError, this')
      /\ ObjectDetector.isInitialized this'
         = ObjectDetector.isInitialized (released detector640x480).
Proof.
  split.
  - apply (proj1 (cleanup_outcome ObjectDetector.new)). reflexivity.
  - apply (proj1 (proj2 (cleanup_outcome (released detector640x480)))). reflexivity.
Defined.

(** X12. Whatever state the instance is in (new, in use, released, or left
    by a [cleanup] that threw), once [initialize] has returned [true] a
    [cleanup] completes, and leaves the instance released. *)
Theorem cleanup_after_any_initialize :
  forall env videoWidth videoHeight this this',
    initialize env videoWidth videoHeight this = (Normal true, this') ->
    cleanup this' = (Normal tt, released (initialized videoWidth videoHeight this))
    /\ buffersUsable (released (initialized videoWidth videoHeight this)) = false.
Proof.
  intros env videoWidth videoHeight this this' H.
  destruct (initialize_eq env videoWidth videoHeight this) as (this1 & E & Htrue & _).
  rewrite H in E. inversion E as [[Hb Hs]]. rewrite Htrue by (now symmetry).
  split; reflexivity.
Qed.

Lemma cleanup_after_any_initialize_witness :
  cleanup (snd (initialize (sceneEnv 640 480) 640 480 (released detector640x480)))
  = (Normal tt, released (initialized 640 480 (released detector640x480)))
    /\ buffersUsable (released (initialized 640 480 (released detector640x480))) = false.
Proof.
  apply (cleanup_after_any_initialize (sceneEnv 640 480) 640 480
           (released detector640x480)).
  apply pair_fst_snd. reflexivity.
Defined.

(** ** What a frame leaves in the instance *)

Section Keeps.
Context {X : Type} (proj : ObjectDetector.t -> X).

Lemma keeps_ret' {A} (a : A) : keeps proj (ret a).
Proof. intros s c s' H. now inversion H. Qed.

Lemma keeps_throw' {A} (e : exn) : keeps proj (@throw A e).
Proof. intros s c s' H. now inversion H. Qed.

Lemma keeps_call' {A} (c : completion A) : keeps proj (call c).
Proof. intros s c' s' H. now inversion H. Qed.

Lemma keeps_get' : keeps proj get.
Proof. intros s c s' H. now inversion H. Qed.

Lemma keeps_raise_if' (fault : option exn) : keeps proj (raise_if fault).
Proof. destruct fault; intros s c s' H; now inversion H. Qed.

Lemma keeps_bind' {A B} (m : M A) (k : A -> M B) :
  keeps proj m -> (forall a, keeps proj (k a)) -> keeps proj (bind m k).
Proof.
  intros Hm Hk s c s'. unfold bind.
  destruct (m s) as [[a|e] s1] eqn:E; intros H.
  - rewrite (Hk a _ _ _ H). exact (Hm _ _ _ E).
  - inversion H; subst. exact (Hm _ _ _ E).
Qed.

Lemma keeps_try_catch' {A} (body : M A) (handler : exn -> M A) :
  keeps proj body -> (forall e, keeps proj (handler e)) ->
  keeps proj (try_catch body handler).
Proof.
  intros Hm Hk s c s'. unfold try_catch.
  destruct (body s) as [[a|e] s1] eqn:E; intros H.
  - inversion H; subst. exact (Hm _ _ _ E).
  - rewrite (Hk e _ _ _ H). exact (Hm _ _ _ E).
Qed.

Lemma keeps_modify' (f : ObjectDetector.t -> ObjectDetector.t) :
  (forall this, proj (f this) = proj this) -> keeps proj (modify f).
Proof. intros Hf s c s' H. inversion H; subst. apply Hf. Qed.

Lemma keeps_useMat' (field : option Mat.t) : keeps proj (useMat field).
Proof.
  destruct field as [m|]; cbn; [destruct (Mat.isDeleted m)|];
    intros s c s' H; now inversion H.
Qed.

Lemma keeps_useMatVector' (field : option MatVector.t) :
  keeps proj (useMatVector field).
Proof.
  destruct field as [v|]; cbn; [destruct (MatVector.isDeleted v)|];
    intros s c s' H; now inversion H.
Qed.

End Keeps.

Create HintDb keeps.
#[local] Hint Resolve keeps_ret' keeps_throw' keeps_call' keeps_get' keeps_raise_if'
  keeps_useMat' keeps_useMatVector' : keeps.
#[local] Hint Extern 2 (keeps _ (bind _ _)) => apply keeps_bind'; [|intro] : keeps.
#[local] Hint Extern 2 (keeps _ (modify _)) =>
  apply keeps_modify'; intro; reflexivity : keeps.

Lemma captureCurrentFrame_keeps_shape (env : Env) :
  keeps flagAndSrcShape (captureCurrentFrame env).
Proof.
  intros this c this'. rewrite captureCurrentFrame_eq.
  destruct (ctx_drawImage env 0%nat); [intros H; now inversion H|].
  destruct (_ || _); [intros H; now inversion H|].
  destruct (ctx_getImageData_fault env); [intros H; now inversion H|].
  destruct (ObjectDetector.src this) as [src|] eqn:Esrc; [|intros H; now inversion H].
  destruct (Mat.isDeleted src); [intros H; now inversion H|].
  set (bytes := frameBytes env).
  destruct (_ <? _)%nat eqn:El; intros H; inversion H; subst; [reflexivity|].
  apply Nat.ltb_ge in El.
  unfold flagAndSrcShape, srcShape. rewrite Esrc.
  cbn [ObjectDetector.src ObjectDetector.set_src ObjectDetector.isInitialized
       option_map].
  unfold matShape.
  cbn [Mat.with_data Mat.rows Mat.cols Mat.channels Mat.data Mat.isDeleted].
  rewrite length_app, length_skipn.
  replace (List.length bytes + (List.length (Mat.data src) - List.length bytes))%nat
    with (List.length (Mat.data src)) by lia.
  reflexivity.
Qed.

Lemma processFrame_keeps_shape (env : Env) : keeps flagAndSrcShape (processFrame env).
Proof.
  unfold processFrame. apply keeps_bind'; [auto with keeps|]. intros this.
  destruct (negb _); [auto with keeps|].
  apply keeps_try_catch'; [|auto with keeps].
  unfold processFrame_try.
  apply keeps_bind'; [auto with keeps|]. intros _.
  apply keeps_bind'; [apply captureCurrentFrame_keeps_shape|]. intros _.
  unfold cvtColor, preprocessImage, findContours, analyzeContours,
    postProcessDetections, drawDetections.
  auto 60 with keeps.
Qed.

(** X13. No frame, completed or failed, changes the flag or the source
    buffer's shape: its rows, columns and channels, the number of bytes it
    holds, and whether it is deleted.  A frame never resizes the buffer that
    [initialize] allocated and never switches the detector off. *)
Theorem processFrame_keeps_flag_and_buffer :
  forall env this c this',
    processFrame env this = (c, this') ->
    ObjectDetector.isInitialized this' = ObjectDetector.isInitialized this
    /\ srcShape this' = srcShape this.
Proof.
  intros env this c this' H.
  pose proof (processFrame_keeps_shape env this c this' H) as E.
  unfold flagAndSrcShape in E. now inversion E.
Qed.

Lemma processFrame_keeps_flag_and_buffer_witness :
  ObjectDetector.isInitialized (snd (processFrame (sceneEnv 320 240) detector640x480))
  = ObjectDetector.isInitialized detector640x480
  /\ srcShape (snd (processFrame (sceneEnv 320 240) detector640x480))
     = srcShape detector640x480.
Proof.
  apply (processFrame_keeps_flag_and_buffer (sceneEnv 320 240) detector640x480
           (fst (processFrame (sceneEnv 320 240) detector640x480))).
  apply surjective_pairing.
Defined.

Lemma bind_inv {A B} (m : M A) (k : A -> M B) this c this' :
  bind m k this = (c, this') ->
  (exists e, m this = (Throw e, this') /\ c = Throw e)
  \/ (exists a this1, m this = (Normal a, this1) /\ k a this1 = (c, this')).
Proof.
  unfold bind. destruct (m this) as [[a|e] this1]; intros H.
  - right. now exists a, this1.
  - left. inversion H; subst. now exists e.
Qed.

Lemma analyzeContours_Throw this e this' :
  analyzeContours this = (Throw e, this') -> this' = this.
Proof.
  unfold analyzeContours, postProcessDetections, bind, get, modify, useMatVector.
  destruct (ObjectDetector.contours this) as [v|]; cbn.
  - destruct (MatVector.isDeleted v); cbn; intros H; now inversion H.
  - intros H. now inversion H.
Qed.

(** The detections the instance holds once the guarded block has stopped,
    however it stopped. *)
Lemma processFrame_try_stored (env : Env) this c this' :
  processFrame_try env this = (c, this') ->
  (ObjectDetector.detectedObjects this' = []
   \/ exists dst found,
       cv_findContours env dst = Normal found
       /\ ObjectDetector.detectedObjects this' = postProcess (analyzeLoop found []))
  /\ (forall l, c = Normal l -> l = ObjectDetector.detectedObjects this').
Proof.
  unfold processFrame_try. intros H.
  apply bind_inv in H as [(e & Hm & ->) | (u0 & s0 & Hm & H)];
    [inversion Hm|]. inversion Hm; subst; clear Hm.
  apply bind_inv in H as [(e & Hm & ->) | (u1 & s1 & Hm & H)].
  { apply keeps_captureCurrentFrame in Hm. split; [now left | discriminate]. }
  apply keeps_captureCurrentFrame in Hm.
  cbn [ObjectDetector.detectedObjects ObjectDetector.set_detectedObjects] in Hm.
  apply bind_inv in H as [(e & Hm2 & ->) | (u2 & s2 & Hm2 & H)].
  { apply keeps_cvtColor in Hm2. split; [left; congruence | discriminate]. }
  apply keeps_cvtColor in Hm2. rewrite Hm in Hm2. clear Hm s1.
  apply bind_inv in H as [(e & Hm3 & ->) | (u3 & s3 & Hm3 & H)].
  { apply keeps_preprocessImage in Hm3. split; [left; congruence | discriminate]. }
  apply keeps_preprocessImage in Hm3. rewrite Hm2 in Hm3. clear Hm2 s2.
  apply bind_inv in H as [(e & Hm4 & ->) | (u4 & s4 & Hm4 & H)].
  { apply keeps_findContours in Hm4. split; [left; congruence | discriminate]. }
  pose proof (keeps_findContours _ _ _ _ Hm4) as Hk4. rewrite Hm3 in Hk4.
  apply findContours_Normal in Hm4 as (dst & v & found & Hfound & Hv & _).
  clear Hm3 s3.
  apply bind_inv in H as [(e & Hm5 & ->) | (u5 & s5 & Hm5 & H)].
  { apply keeps_raise_if in Hm5. split; [left; congruence | discriminate]. }
  apply raise_if_Normal in Hm5. subst s5.
  apply bind_inv in H as [(e & Hm6 & ->) | (u6 & s6 & Hm6 & H)].
  { apply analyzeContours_Throw in Hm6. subst. split; [now left | discriminate]. }
  apply analyzeContours_Normal in Hm6 as (w & Hw & _ & Hpost).
  rewrite Hv in Hw. inversion Hw; subst w. cbn in Hpost. rewrite Hk4 in Hpost.
  assert (Hstored : exists dst found,
             cv_findContours env dst = Normal found
             /\ ObjectDetector.detectedObjects s6 = postProcess (analyzeLoop found [])).
  { now exists dst, found. }
  clear Hpost Hv Hk4 Hfound.
  apply bind_inv in H as [(e & Hm7 & ->) | (u7 & s7 & Hm7 & H)].
  { apply keeps_drawDetections in Hm7. rewrite <- Hm7 in Hstored.
    split; [now right | discriminate]. }
  apply keeps_drawDetections in Hm7. rewrite <- Hm7 in Hstored.
  unfold bind, get, ret in H. inversion H; subst.
  split; [now right|]. intros l Hl. now inversion Hl.
Qed.



Lemma set_detectedObjects_twice (l previous : list Detection.t) this :
  ObjectDetector.set_detectedObjects l
    (ObjectDetector.set_detectedObjects previous this)
  = ObjectDetector.set_detectedObjects l this.
Proof. now destruct this. Qed.

Lemma processFrame_try_forgets (env : Env) (previous : list Detection.t) this :
  processFrame_try env (ObjectDetector.set_detectedObjects previous this)
  = processFrame_try env this.
Proof.
  unfold processFrame_try.
  rewrite (bind_step _ _ (ObjectDetector.set_detectedObjects previous this) tt
             (ObjectDetector.set_detectedObjects [] this))
    by (unfold modify; now rewrite set_detectedObjects_twice).
  now rewrite (bind_step _ _ this tt (ObjectDetector.set_detectedObjects [] this)).
Qed.

(** X15. A frame does not depend on the detections of the frame before: the
    list returned is the same whatever [this.detectedObjects] held, and on
    an initialized detector so is the instance the frame leaves. *)
Theorem processFrame_forgets_previous_detections :
  forall env previous this,
    fst (processFrame env (ObjectDetector.set_detectedObjects previous this))
    = fst (processFrame env this)
    /\ (ObjectDetector.isInitialized this = true ->
        processFrame env (ObjectDetector.set_detectedObjects previous this)
        = processFrame env this).
Proof.
  intros env previous this.
  destruct (ObjectDetector.isInitialized this) eqn:Hinit.
  - assert (E : processFrame env (ObjectDetector.set_detectedObjects previous this)
                = processFrame env this).
    { rewrite !processFrame_initialized by (destruct this; exact Hinit).
      unfold try_catch. now rewrite processFrame_try_forgets. }
    now rewrite E.
  - rewrite !processFrame_uninitialized by (destruct this; exact Hinit).
    split; [reflexivity | discriminate].
Qed.

Lemma processFrame_forgets_previous_detections_witness :
  processFrame (sceneEnv 320 240)
    (ObjectDetector.set_detectedObjects [fullBox; halfBox] detector640x480)
  = processFrame (sceneEnv 320 240) detector640x480.
Proof.
  apply (proj2 (processFrame_forgets_previous_detections (sceneEnv 320 240)
                  [fullBox; halfBox] detector640x480)).
  reflexivity.
Defined.

(** ** The summary object *)

Lemma summary_get_set_same (summary : Summary) type entry :
  summary_get (summary_set summary type entry) type = Some entry.
Proof.
  induction summary as [|[key old] rest IH]; cbn [summary_set summary_get].
  - now rewrite String.eqb_refl.
  - destruct (String.eqb key type) eqn:E; cbn [summary_get]; now rewrite E.
Qed.

Lemma summary_get_set_other (summary : Summary) type entry other :
  other <> type ->
  summary_get (summary_set summary type entry) other = summary_get summary other.
Proof.
  intros Hneq.
  induction summary as [|[key old] rest IH]; cbn [summary_set summary_get].
  - replace (String.eqb type other) with false; [reflexivity|].
    symmetry. apply String.eqb_neq. congruence.
  - destruct (String.eqb key type) eqn:E; cbn [summary_get].
    + apply String.eqb_eq in E. subst key.
      replace (String.eqb type other) with false; [reflexivity|].
      symmetry. apply String.eqb_neq. congruence.
    + now rewrite IH.
Qed.

Lemma summary_get_None (summary : Summary) type :
  summary_get summary type = None <-> ~ In type (summary_keys summary).
Proof.
  induction summary as [|[key old] rest IH]; cbn [summary_get summary_keys map In fst].
  - tauto.
  - destruct (String.eqb key type) eqn:E.
    + apply String.eqb_eq in E. split; [discriminate | tauto].
    + apply String.eqb_neq in E. unfold summary_keys in IH. rewrite IH. tauto.
Qed.

Lemma summary_keys_set (summary : Summary) type entry :
  summary_keys (summary_set summary type entry)
  = match summary_get summary type with
    | Some _ => summary_keys summary
    | None => summary_keys summary ++ [type]
    end.
Proof.
  induction summary as [|[key old] rest IH];
    cbn [summary_set summary_get summary_keys map fst app]; [reflexivity|].
  destruct (String.eqb key type) eqn:E; cbn [map fst]; [reflexivity|].
  unfold summary_keys in IH. rewrite IH.
  now destruct (summary_get rest type).
Qed.

Lemma countSum_set (summary : Summary) type entry :
  (countSum (summary_set summary type entry)
   + TypeSummary.count (entryOrNew (summary_get summary type)))%nat
  = (countSum summary + TypeSummary.count entry)%nat.
Proof.
  unfold countSum, list_sum.
  induction summary as [|[key old] rest IH];
    cbn [summary_set summary_get map fold_right snd].
  - cbn. lia.
  - destruct (String.eqb key type);
      cbn [map fold_right snd entryOrNew] in *; lia.
Qed.

Lemma countDetection_step (summary : Summary) (total : Q) (d : Detection.t) :
  let old := summary_get summary (Detection.type d) in
  let next := countDetection (summary, total) d in
  summary_get (fst next) (Detection.type d)
  = Some (TypeSummary.mk (S (TypeSummary.count (entryOrNew old)))
            (TypeSummary.avgConfidence (entryOrNew old))
            (TypeSummary.totalConfidence (entryOrNew old) + Detection.confidence d))
  /\ (forall other, other <> Detection.type d ->
                    summary_get (fst next) other = summary_get summary other)
  /\ summary_keys (fst next)
     = match old with
       | Some _ => summary_keys summary
       | None => summary_keys summary ++ [Detection.type d]
       end
  /\ countSum (fst next) = S (countSum summary)
  /\ snd next = total + Detection.confidence d.
Proof.
  cbv zeta. unfold countDetection.
  destruct (summary_get summary (Detection.type d)) as [entry|] eqn:E.
  - rewrite E. cbn [fst snd entryOrNew].
    split; [apply summary_get_set_same|].
    split; [intros other H; now apply summary_get_set_other|].
    split; [now rewrite summary_keys_set, E|].
    split; [|reflexivity].
    pose proof (countSum_set summary (Detection.type d)
                  (TypeSummary.mk (S (TypeSummary.count entry))
                     (TypeSummary.avgConfidence entry)
                     (TypeSummary.totalConfidence entry + Detection.confidence d))) as H.
    rewrite E in H. cbn [entryOrNew TypeSummary.count] in H. lia.
  - rewrite summary_get_set_same. cbn [fst snd entryOrNew TypeSummary.count
                                        TypeSummary.avgConfidence
                                        TypeSummary.totalConfidence].
    split; [apply summary_get_set_same|].
    split; [intros other H; now rewrite !summary_get_set_other|].
    split; [now rewrite !summary_keys_set, summary_get_set_same, E|].
    split; [|reflexivity].
    pose proof (countSum_set summary (Detection.type d) (TypeSummary.mk 0 0 0)) as H1.
    pose proof (countSum_set (summary_set summary (Detection.type d) (TypeSummary.mk 0 0 0))
                  (Detection.type d)
                  (TypeSummary.mk 1 0 (0 + Detection.confidence d))) as H2.
    rewrite E in H1. rewrite summary_get_set_same in H2.
    cbn [entryOrNew TypeSummary.count] in H1, H2. lia.
Qed.

Lemma Qsum_snoc (l : list Q) (x : Q) : Qsum (l ++ [x]) == Qsum l + x.
Proof.
  induction l as [|y l IH]; cbn [app Qsum fold_right].
  - ring.
  - fold (Qsum (l ++ [x])). fold (Qsum l). rewrite IH. ring.
Qed.

Lemma countOf_snoc type (visited : list Detection.t) (d : Detection.t) :
  countOf type (visited ++ [d])
  = (countOf type visited + if ofType type d then 1 else 0)%nat.
Proof.
  unfold countOf. rewrite filter_app, length_app. cbn [filter].
  now destruct (ofType type d).
Qed.

Lemma totalOf_snoc type (visited : list Detection.t) (d : Detection.t) :
  totalOf type (visited ++ [d])
  == totalOf type visited + (if ofType type d then Detection.confidence d else 0).
Proof.
  unfold totalOf. rewrite filter_app, map_app. cbn [filter].
  destruct (ofType type d); cbn [map].
  - apply Qsum_snoc.
  - rewrite app_nil_r. ring.
Qed.

Lemma countedSoFar_step (acc : Summary * Q) (visited : list Detection.t) (d : Detection.t) :
  countedSoFar acc visited -> countedSoFar (countDetection acc d) (visited ++ [d]).
Proof.
  destruct acc as [summary total]. intros (Hnodup & Hget & Hsum & Htotal).
  cbn [fst snd] in *.
  destruct (countDetection_step summary total d) as (Hsame & Hother & Hkeys & Hcount & Hsnd).
  cbv zeta in *.
  split; [|split; [|split]].
  - rewrite Hkeys. destruct (summary_get summary (Detection.type d)) eqn:E; [exact Hnodup|].
    apply summary_get_None in E.
    apply NoDup_app; [exact Hnodup | repeat constructor; intros [] |].
    intros a Ha [<-|[]]. exact (E Ha).
  - intros type.
    assert (Hc1 := countOf_snoc type visited d).
    assert (Ht1 := totalOf_snoc type visited d).
    unfold ofType in Hc1, Ht1.
    destruct (String.eqb (Detection.type d) type) eqn:Et.
    + apply String.eqb_eq in Et. subst type. rewrite Hsame.
      cbn [TypeSummary.count TypeSummary.totalConfidence].
      specialize (Hget (Detection.type d)).
      destruct (summary_get summary (Detection.type d)) as [entry|];
        cbn [entryOrNew TypeSummary.count TypeSummary.totalConfidence].
      * destruct Hget as (Hc & _ & Ht).
        split; [lia | split; [lia|]]. rewrite Ht1, Ht. reflexivity.
      * split; [lia | split; [lia|]]. rewrite Ht1.
        assert (Hnil : filter (ofType (Detection.type d)) visited = []).
        { unfold countOf in Hget. now apply length_zero_iff_nil. }
        unfold totalOf. rewrite Hnil. reflexivity.
    + apply String.eqb_neq in Et. rewrite Hother by congruence.
      specialize (Hget type). destruct (summary_get summary type) as [entry|].
      * destruct Hget as (Hc & H1 & Ht).
        split; [lia | split; [lia|]]. rewrite Ht1, Ht. ring.
      * lia.
  - rewrite Hcount, Hsum, length_app. cbn. lia.
  - rewrite Hsnd, Htotal, map_app. cbn [map]. now rewrite Qsum_snoc.
Qed.

Lemma countedSoFar_fold (detections : list Detection.t) :
  countedSoFar (fold_left countDetection detections ([], 0)) detections.
Proof.
  induction detections as [|d visited IH] using rev_ind.
  - split; [constructor | split; [intros; reflexivity | split; reflexivity]].
  - rewrite fold_left_app. cbn [fold_left]. now apply countedSoFar_step.
Qed.

Lemma averageType_get (summary : Summary) type other :
  summary_get (averageType summary type) other
  = if String.eqb type other then option_map averaged (summary_get summary other)
    else summary_get summary other.
Proof.
  unfold averageType. destruct (String.eqb type other) eqn:E.
  - apply String.eqb_eq in E. subst other.
    destruct (summary_get summary type) as [entry|] eqn:Eg.
    + now rewrite summary_get_set_same.
    + now rewrite Eg.
  - apply String.eqb_neq in E.
    destruct (summary_get summary type); [|reflexivity].
    apply summary_get_set_other. congruence.
Qed.

Lemma averageType_keys (summary : Summary) type :
  summary_keys (averageType summary type) = summary_keys summary.
Proof.
  unfold averageType. destruct (summary_get summary type) eqn:E; [|reflexivity].
  now rewrite summary_keys_set, E.
Qed.

Lemma averageTypes_keys (keys : list string) :
  forall summary,
    summary_keys (fold_left averageType keys summary) = summary_keys summary.
Proof.
  induction keys as [|k rest IH]; intros summary; cbn [fold_left]; [reflexivity|].
  now rewrite IH, averageType_keys.
Qed.

Lemma averageTypes_get (keys : list string) :
  NoDup keys ->
  forall summary type,
    summary_get (fold_left averageType keys summary) type
    = if existsb (String.eqb type) keys
      then option_map averaged (summary_get summary type)
      else summary_get summary type.
Proof.
  induction 1 as [|k rest Hk Hnodup IH]; intros summary type; cbn [fold_left existsb].
  - reflexivity.
  - rewrite IH, averageType_get, (String.eqb_sym type k).
    destruct (String.eqb k type) eqn:E; cbn [orb]; [|reflexivity].
    apply String.eqb_eq in E. subst type.
    replace (existsb (String.eqb k) rest) with false; [reflexivity|].
    symmetry. apply not_true_iff_false. intros H.
    apply existsb_exists in H as (x & Hx & Ex). apply String.eqb_eq in Ex.
    subst x. exact (Hk Hx).
Qed.

(** The summary object [getDetectionSummary] returns, key by key. *)
Lemma getDetectionSummary_types (detections : list Detection.t) :
  let counted := fst (fold_left countDetection detections ([], 0)) in
  summary_keys (DetectionSummary.types (getDetectionSummary detections))
  = summary_keys counted
  /\ forall type,
      summary_get (DetectionSummary.types (getDetectionSummary detections)) type
      = option_map averaged (summary_get counted type).
Proof.
  cbv zeta. unfold getDetectionSummary.
  pose proof (countedSoFar_fold detections) as (Hnodup & _).
  destruct (fold_left countDetection detections ([], 0)) as [summary total].
  cbn [fst DetectionSummary.types] in *.
  split; [apply averageTypes_keys|].
  intros type. rewrite (averageTypes_get _ Hnodup).
  destruct (existsb (String.eqb type) (summary_keys summary)) eqn:E; [reflexivity|].
  replace (summary_get summary type) with (@None TypeSummary.t); [reflexivity|].
  symmetry. apply summary_get_None. intros Hin.
  apply not_true_iff_false in E. apply E, existsb_exists.
  exists type. split; [exact Hin | apply String.eqb_refl].
Qed.

Lemma countOf_pos type (detections : list Detection.t) :
  (1 <= countOf type detections)%nat
  <-> exists d, In d detections /\ Detection.type d = type.
Proof.
  unfold countOf. split.
  - intros H. destruct (filter (ofType type) detections) as [|d rest] eqn:E;
      [cbn in H; lia|].
    assert (Hd : In d (filter (ofType type) detections)) by (rewrite E; now left).
    apply filter_In in Hd as (Hin & Ht). exists d. split; [exact Hin|].
    now apply String.eqb_eq.
  - intros (d & Hin & Ht).
    assert (Hd : In d (filter (ofType type) detections)).
    { apply filter_In. split; [exact Hin|]. now apply String.eqb_eq. }
    destruct (filter (ofType type) detections); [destruct Hd | cbn; lia].
Qed.

Lemma countSum_averaged (keys : list string) :
  forall summary, countSum (fold_left averageType keys summary) = countSum summary.
Proof.
  induction keys as [|k rest IH]; intros summary; cbn [fold_left]; [reflexivity|].
  rewrite IH. unfold averageType.
  destruct (summary_get summary k) as [entry|] eqn:E; [|reflexivity].
  pose proof (countSum_set summary k
                (TypeSummary.mk (TypeSummary.count entry)
                   (TypeSummary.totalConfidence entry
                    / Number_of_nat (TypeSummary.count entry))
                   (TypeSummary.totalConfidence entry))) as H.
  rewrite E in H. cbn [entryOrNew TypeSummary.count] in H. lia.
Qed.

(** X16. The summary counts every detection once.  Its keys are the labels
    present among the detections, each once; the entry of a label counts the
    detections of that label, at least one; the counts add up to
    [totalObjects], the number of detections. *)
Theorem getDetectionSummary_counts :
  forall detections,
    Forall hasLabel detections ->
    let summary := getDetectionSummary detections in
    DetectionSummary.totalObjects summary = List.length detections
    /\ NoDup (summary_keys (DetectionSummary.types summary))
    /\ (forall type,
        In type (summary_keys (DetectionSummary.types summary))
        <-> exists d, In d detections /\ Detection.type d = type)
    /\ (forall type entry,
        summary_get (DetectionSummary.types summary) type = Some entry ->
        TypeSummary.count entry = countOf type detections
        /\ (1 <= TypeSummary.count entry)%nat)
    /\ countSum (DetectionSummary.types summary) = List.length detections.
Proof.
  intros detections _. cbv zeta.
  destruct (getDetectionSummary_types detections) as (Hkeys & Hget).
  pose proof (countedSoFar_fold detections) as (Hnodup & Hcounted & Hsum & _).
  assert (Hentry : forall type entry,
             summary_get (DetectionSummary.types (getDetectionSummary detections)) type
             = Some entry ->
             TypeSummary.count entry = countOf type detections
             /\ (1 <= TypeSummary.count entry)%nat).
  { intros type entry H. rewrite Hget in H. specialize (Hcounted type).
    destruct (summary_get _ type) as [e|]; [|discriminate].
    inversion H; subst entry. cbn [averaged TypeSummary.count]. tauto. }
  split; [|split; [|split; [|split]]].
  - unfold getDetectionSummary.
    now destruct (fold_left countDetection detections ([], 0)).
  - now rewrite Hkeys.
  - intros type. rewrite <- countOf_pos. split.
    + intros Hin.
      destruct (summary_get (DetectionSummary.types (getDetectionSummary detections)) type)
        as [entry|] eqn:E.
      * destruct (Hentry type entry E) as (Hc & H1). lia.
      * apply summary_get_None in E. contradiction.
    + intros Hpos. rewrite Hkeys.
      destruct (in_dec string_dec type
                  (summary_keys (fst (fold_left countDetection detections ([], 0)))))
        as [Hin|Hnin]; [exact Hin|].
      apply summary_get_None in Hnin. specialize (Hcounted type).
      rewrite Hnin in Hcounted. lia.
  - exact Hentry.
  - unfold getDetectionSummary.
    destruct (fold_left countDetection detections ([], 0)) as [summary total].
    cbn [DetectionSummary.types fst] in *. now rewrite countSum_averaged.
Qed.

Ltac label_in := cbn; repeat first [left; reflexivity | right].

Lemma getDetectionSummary_counts_witness :
  countSum (DetectionSummary.types
              (getDetectionSummary [detectionOf discContour; detectionOf figureContour]))
  = 2%nat.
Proof.
  assert (Hlabels : Forall hasLabel [detectionOf discContour; detectionOf figureContour])
    by (repeat constructor; unfold hasLabel; label_in).
  exact (proj2 (proj2 (proj2 (proj2
           (getDetectionSummary_counts
              [detectionOf discContour; detectionOf figureContour] Hlabels))))).
Defined.

(** ** Averages *)

Lemma Number_of_nat_S (n : nat) : Number_of_nat (S n) == Number_of_nat n + 1.
Proof.
  unfold Number_of_nat. rewrite Nat2Z.inj_succ. unfold Z.succ.
  now rewrite inject_Z_plus.
Qed.

Lemma Number_of_nat_pos (n : nat) : (1 <= n)%nat -> 0 < Number_of_nat n.
Proof.
  intros H. unfold Number_of_nat. change 0 with (inject_Z 0).
  rewrite <- Zlt_Qlt. lia.
Qed.

Lemma Qsum_bounds (lo hi : Q) (l : list Q) :
  Forall (fun x => lo <= x <= hi) l ->
  lo * Number_of_nat (List.length l) <= Qsum l <= hi * Number_of_nat (List.length l).
Proof.
  induction 1 as [|x l (Hlo & Hhi) _ IH]; cbn [List.length Qsum fold_right].
  - unfold Number_of_nat. cbn. split; rewrite Qmult_0_r; apply Qle_refl.
  - fold (Qsum l). rewrite Number_of_nat_S. destruct IH as (IHlo & IHhi).
    split; lra.
Qed.

Lemma Qmean_bounds (lo hi : Q) (l : list Q) :
  (1 <= List.length l)%nat ->
  Forall (fun x => lo <= x <= hi) l ->
  lo <= Qsum l / Number_of_nat (List.length l) <= hi.
Proof.
  intros Hn H. destruct (Qsum_bounds lo hi l H) as (Hlo & Hhi).
  pose proof (Number_of_nat_pos _ Hn) as Hpos.
  split.
  - now apply Qle_shift_div_l.
  - now apply Qle_shift_div_r.
Qed.

Lemma summary_entry_average (detections : list Detection.t) type entry :
  summary_get (DetectionSummary.types (getDetectionSummary detections)) type
  = Some entry ->
  TypeSummary.count entry = countOf type detections
  /\ (1 <= countOf type detections)%nat
  /\ TypeSummary.totalConfidence entry == totalOf type detections
  /\ TypeSummary.avgConfidence entry
     == totalOf type detections / Number_of_nat (countOf type detections).
Proof.
  intros H.
  destruct (getDetectionSummary_types detections) as (_ & Hget).
  pose proof (countedSoFar_fold detections) as (_ & Hcounted & _).
  rewrite Hget in H. specialize (Hcounted type).
  destruct (summary_get _ type) as [e|]; [|discriminate].
  inversion H; subst entry.
  cbn [averaged TypeSummary.count TypeSummary.totalConfidence TypeSummary.avgConfidence].
  destruct Hcounted as (Hc & H1 & Ht).
  split; [exact Hc|]. split; [lia|]. split; [exact Ht|]. now rewrite Ht, Hc.
Qed.

Lemma summary_entry_range (detections : list Detection.t) type entry :
  Forall confidenceInRange detections ->
  summary_get (DetectionSummary.types (getDetectionSummary detections)) type
  = Some entry ->
  0.1 <= TypeSummary.avgConfidence entry <= 0.9.
Proof.
  intros Hrange H.
  destruct (summary_entry_average detections type entry H) as (_ & H1 & _ & Havg).
  rewrite Havg. unfold totalOf, countOf in *.
  rewrite <- (length_map Detection.confidence).
  apply Qmean_bounds; [now rewrite length_map|].
  apply Forall_forall. intros x Hx. apply in_map_iff in Hx as (d & <- & Hd).
  apply filter_In in Hd as (Hd & _).
  exact (proj1 (Forall_forall _ _) Hrange d Hd).
Qed.

Lemma summary_overall_average (detections : list Detection.t) :
  (detections = [] ->
   DetectionSummary.avgConfidence (getDetectionSummary detections) = 0)
  /\ (detections <> [] ->
      DetectionSummary.avgConfidence (getDetectionSummary detections)
      == Qsum (map Detection.confidence detections)
         / Number_of_nat (List.length detections)).
Proof.
  unfold getDetectionSummary.
  pose proof (countedSoFar_fold detections) as (_ & _ & _ & Htotal).
  destruct (fold_left countDetection detections ([], 0)) as [summary total].
  cbn [snd DetectionSummary.avgConfidence] in *.
  split.
  - intros ->. reflexivity.
  - intros Hne. destruct detections as [|d rest]; [contradiction|].
    cbn [List.length Nat.ltb Nat.leb]. now rewrite Htotal.
Qed.

Lemma summary_overall_range (detections : list Detection.t) :
  Forall confidenceInRange detections ->
  detections <> [] ->
  0.1 <= DetectionSummary.avgConfidence (getDetectionSummary detections) <= 0.9.
Proof.
  intros Hrange Hne.
  rewrite (proj2 (summary_overall_average detections) Hne).
  rewrite <- (length_map Detection.confidence).
  apply Qmean_bounds.
  - rewrite length_map. destruct detections; [contradiction | cbn; lia].
  - apply Forall_forall. intros x Hx. apply in_map_iff in Hx as (d & <- & Hd).
    exact (proj1 (Forall_forall _ _) Hrange d Hd).
Qed.



(** ** The summary of what a frame left *)

Lemma summary_keys_present (detections : list Detection.t) type :
  In type (summary_keys (DetectionSummary.types (getDetectionSummary detections)))
  <-> exists d, In d detections /\ Detection.type d = type.
Proof.
  destruct (getDetectionSummary_types detections) as (Hkeys & Hget).
  pose proof (countedSoFar_fold detections) as (_ & Hcounted & _).
  rewrite <- countOf_pos, Hkeys. specialize (Hcounted type).
  destruct (summary_get (fst (fold_left countDetection detections ([], 0))) type)
    as [entry|] eqn:E.
  - destruct Hcounted as (Hc & H1 & _). split; [lia|]. intros _.
    destruct (in_dec string_dec type
                (summary_keys (fst (fold_left countDetection detections ([], 0)))))
      as [Hin|Hnin]; [exact Hin|].
    apply summary_get_None in Hnin. congruence.
  - apply summary_get_None in E. split; [contradiction | lia].
Qed.

Lemma processFrame_stored (env : Env) this c this' :
  ObjectDetector.isInitialized this = true ->
  processFrame env this = (c, this') ->
  ObjectDetector.detectedObjects this' = []
  \/ exists dst found,
      cv_findContours env dst = Normal found
      /\ ObjectDetector.detectedObjects this' = postProcess (analyzeLoop found []).
Proof.
  intros Hinit H.
  rewrite (processFrame_initialized env this Hinit) in H. unfold try_catch in H.
  destruct (processFrame_try env this) as [[l|e] s1] eqn:E;
    inversion H; subst; exact (proj1 (processFrame_try_stored env this _ _ E)).
Qed.

Lemma processFrame_stored_Forall (P : Detection.t -> Prop) (env : Env) this c this' :
  (forall contour, P (detectionOf contour)) ->
  ObjectDetector.isInitialized this = true ->
  processFrame env this = (c, this') ->
  Forall P (ObjectDetector.detectedObjects this')
  /\ (List.length (ObjectDetector.detectedObjects this') <= 10)%nat.
Proof.
  intros HP Hinit H.
  destruct (processFrame_stored env this c this' Hinit H)
    as [-> | (dst & found & _ & ->)].
  - split; [constructor | cbn; lia].
  - split; [now apply postProcess_Forall, analyzeLoop_Forall | apply postProcess_length].
Qed.



(** ** The description of the scene *)

Open Scope string_scope.

Lemma distinctiveStart_app (s t : string) :
  distinctiveStart s = true -> distinctiveStart (s ++ t) = true.
Proof.
  destruct s as [|c1 [|c2 [|c3 r]]]; cbn [distinctiveStart append];
    try discriminate;
    destruct (Ascii.eqb c1 "v"); try discriminate;
    destruct (Ascii.eqb c1 "a"); try discriminate; try reflexivity;
    destruct (Ascii.eqb c2 " "); try discriminate; try reflexivity;
    auto.
Qed.

Lemma distinctiveStart_sound (s : string) :
  distinctiveStart s = true ->
  s <> "" /\ s <> "a general scene" /\ s <> "various objects".
Proof.
  intros H. repeat split; intros ->; vm_compute in H; discriminate.
Qed.

Lemma Number_toString_start (n : nat) (t : string) :
  distinctiveStart (Number_toString n ++ String " " t) = true.
Proof.
  unfold Number_toString. destruct (Nat.to_uint n); reflexivity.
Qed.

Lemma label_phrase_start (type : string) :
  In type allLabels -> distinctiveStart ("a " ++ type) = true.
Proof.
  unfold allLabels, classifierLabels. cbn [In]. intros H.
  repeat (destruct H as [<-|H]; [reflexivity|]). destruct H.
Qed.

Lemma describeType_start (summary : DetectionSummary.t) (type : string) :
  In type allLabels -> distinctiveStart (describeType summary type) = true.
Proof.
  intros H. unfold describeType. destruct (_ =? 1)%nat.
  - now apply label_phrase_start.
  - apply Number_toString_start.
Qed.

Lemma Array_join_start (first : string) (rest : list string) :
  distinctiveStart first = true ->
  distinctiveStart (Array_join ", " (first :: rest)) = true.
Proof.
  intros H. unfold Array_join. cbn [concat].
  destruct rest; [exact H | now apply distinctiveStart_app].
Qed.

Lemma sceneDescriptionText_start (detections : list Detection.t) :
  Forall hasLabel detections ->
  detections <> [] ->
  distinctiveStart (sceneDescriptionText detections) = true.
Proof.
  intros Hlabels Hne. unfold sceneDescriptionText. cbv zeta.
  set (summary := getDetectionSummary detections).
  set (others := filter (fun type => negb (String.eqb type objectTypes.HUMAN))
                   (summary_keys (DetectionSummary.types summary))).
  destruct (summary_get (DetectionSummary.types summary) objectTypes.HUMAN)
    as [entry|] eqn:Eperson.
  - assert (Hpp : distinctiveStart
                    ("" ++ (if (TypeSummary.count entry =? 1)%nat then "a person"
                            else Number_toString (TypeSummary.count entry) ++ " people"))
                  = true).
    { cbn [append]. destruct (_ =? 1)%nat; [reflexivity | apply Number_toString_start]. }
    destruct (0 <? List.length others)%nat; cbn [andb]; [|exact Hpp].
    destruct (negb _);
      first [ exact Hpp
            | apply distinctiveStart_app;
              first [exact Hpp | apply distinctiveStart_app; exact Hpp] ].
  - assert (Hothers : exists first rest, others = first :: rest /\ In first allLabels).
    { destruct detections as [|d ds]; [contradiction|].
      assert (Hkey : In (Detection.type d)
                        (summary_keys (DetectionSummary.types summary))).
      { apply summary_keys_present. exists d. split; [now left | reflexivity]. }
      assert (Hin : In (Detection.type d) others).
      { apply filter_In. split; [exact Hkey|].
        apply negb_true_iff, String.eqb_neq. intros E.
        apply summary_get_None in Eperson. apply Eperson. now rewrite <- E. }
      destruct others as [|first rest] eqn:Eo; [destruct Hin|].
      exists first, rest. split; [reflexivity|].
      assert (Hf : In first others) by (rewrite Eo; now left).
      apply filter_In in Hf as (Hf & _).
      apply summary_keys_present in Hf as (d' & Hd' & <-).
      exact (proj1 (Forall_forall _ _) Hlabels d' Hd'). }
    destruct Hothers as (first & rest & -> & Hfirst).
    cbn [List.length Nat.ltb Nat.leb String.eqb negb andb firstn map append].
    apply Array_join_start. now apply describeType_start.
Qed.

(** X19. For detections that carry labels of [objectTypes], the
    description is "a general scene" exactly when there is no detection, and
    it is never "various objects": with detections the text built is never
    empty, so the fallback of the last [return] is not used. *)
Theorem generateSceneDescription_general_scene :
  forall detections,
    Forall hasLabel detections ->
    (generateSceneDescription detections = "a general scene" <-> detections = [])
    /\ generateSceneDescription detections <> "various objects"
    /\ (detections <> [] ->
        sceneDescriptionText detections <> ""
        /\ generateSceneDescription detections = sceneDescriptionText detections).
Proof.
  intros detections Hlabels.
  destruct detections as [|d ds].
  - split; [split; reflexivity|]. split; [discriminate|]. intros H. now contradiction H.
  - assert (Hne : d :: ds <> []) by discriminate.
    pose proof (sceneDescriptionText_start (d :: ds) Hlabels Hne) as Hstart.
    destruct (distinctiveStart_sound _ Hstart) as (H1 & H2 & H3).
    assert (E : generateSceneDescription (d :: ds) = sceneDescriptionText (d :: ds)).
    { unfold generateSceneDescription. cbn [List.length Nat.eqb].
      apply String.eqb_neq in H1. now rewrite H1. }
    rewrite E. split; [split; [intros H; contradiction | discriminate]|].
    split; [exact H3|]. intros _. split; [exact H1 | reflexivity].
Qed.

Lemma generateSceneDescription_general_scene_witness :
  generateSceneDescription [detectionOf discContour; detectionOf figureContour]
  = sceneDescriptionText [detectionOf discContour; detectionOf figureContour].
Proof.
  assert (Hlabels : Forall hasLabel [detectionOf discContour; detectionOf figureContour])
    by (repeat constructor; unfold hasLabel; label_in).
  apply (proj2 (proj2 (generateSceneDescription_general_scene
                         [detectionOf discContour; detectionOf figureContour] Hlabels))).
  discriminate.
Defined.

Example scene_description :
  generateSceneDescription [detectionOf discContour; detectionOf figureContour]
  = "a person with a circular object".
Proof. vm_compute. reflexivity. Qed.

Close Scope string_scope.

Lemma generateSceneDescription_text (detections : list Detection.t) :
  Forall hasLabel detections ->
  detections <> [] ->
  generateSceneDescription detections = sceneDescriptionText detections.
Proof.
  intros Hlabels Hne.
  pose proof (sceneDescriptionText_start detections Hlabels Hne) as Hstart.
  destruct (distinctiveStart_sound _ Hstart) as (H1 & _).
  unfold generateSceneDescription.
  destruct detections; [contradiction|]. cbn [List.length Nat.eqb].
  apply String.eqb_neq in H1. now rewrite H1.
Qed.

Lemma filter_none {A} (f : A -> bool) (l : list A) :
  (forall x, In x l -> f x = false) -> filter f l = [].
Proof.
  induction l as [|a l IH]; intros H; cbn [filter]; [reflexivity|].
  rewrite (H a) by (now left). apply IH. intros x Hx. apply H. now right.
Qed.

Lemma filter_all {A} (f : A -> bool) (l : list A) :
  (forall x, In x l -> f x = true) -> filter f l = l.
Proof.
  induction l as [|a l IH]; intros H; cbn [filter]; [reflexivity|].
  rewrite (H a) by (now left). f_equal. apply IH. intros x Hx. apply H. now right.
Qed.

(** X20. A scene of persons only is described by their number: "a person"
    for one detection, and the number followed by "people" for more. *)
Theorem generateSceneDescription_persons_only :
  forall detections,
    detections <> [] ->
    Forall (fun d => Detection.type d = objectTypes.HUMAN) detections ->
    generateSceneDescription detections = personPhrase (List.length detections).
Proof.
  intros detections Hne Hall.
  assert (Hlabels : Forall hasLabel detections).
  { eapply Forall_impl; [|exact Hall].
    intros d Hd. unfold hasLabel. rewrite Hd. label_in. }
  rewrite (generateSceneDescription_text detections Hlabels Hne).
  unfold sceneDescriptionText. cbv zeta.
  set (summary := getDetectionSummary detections).
  assert (Hkeys : forall type,
             In type (summary_keys (DetectionSummary.types summary)) ->
             type = objectTypes.HUMAN).
  { intros type Hin. apply summary_keys_present in Hin as (d & Hd & <-).
    exact (proj1 (Forall_forall _ _) Hall d Hd). }
  rewrite (filter_none _ (summary_keys (DetectionSummary.types summary))).
  2:{ intros type Hin. rewrite (Hkeys type Hin). now rewrite String.eqb_refl. }
  destruct (summary_get (DetectionSummary.types summary) objectTypes.HUMAN)
    as [entry|] eqn:E.
  - destruct (summary_entry_average detections _ entry E) as (Hc & _).
    rewrite Hc. unfold countOf.
    rewrite (filter_all (ofType objectTypes.HUMAN) detections).
    2:{ intros d Hd. unfold ofType.
        rewrite (proj1 (Forall_forall _ _) Hall d Hd). apply String.eqb_refl. }
    reflexivity.
  - exfalso. apply summary_get_None in E. apply E.
    apply summary_keys_present. destruct detections as [|d ds]; [contradiction|].
    exists d. split; [now left|]. now inversion Hall.
Qed.

Lemma generateSceneDescription_persons_only_witness :
  generateSceneDescription [detectionOf figureContour; detectionOf figureContour]
  = personPhrase 2.
Proof.
  apply (generateSceneDescription_persons_only
           [detectionOf figureContour; detectionOf figureContour]).
  - discriminate.
  - repeat constructor.
Defined.

(** ** Drawing *)

Lemma labelPercent_range (d : Detection.t) :
  confidenceInRange d -> (10 <= labelPercent d <= 90)%Z.
Proof.
  intros (Hlo & Hhi). unfold labelPercent, Math_round. split.
  - change 10%Z with (Qfloor (inject_Z 10)). apply Qfloor_resp_le.
    change (inject_Z 10) with 10. lra.
  - change 90%Z with (Qfloor (181 # 2)). apply Qfloor_resp_le. lra.
Qed.

Lemma detectionColor_label (d : Detection.t) :
  hasClassifierLabel d ->
  objectColors_get objectColors (Detection.type d) = Some (detectionColor d)
  /\ detectionColor d <> "#ffffff"%string.
Proof.
  unfold hasClassifierLabel, detectionColor, classifierLabels. cbn [In]. intros H.
  repeat (destruct H as [<-|H]; [split; [reflexivity | discriminate]|]). destruct H.
Qed.

(** X21. What [drawDetections] writes for the detections of a frame: the
    percentage in the label of a box is between 10 and 90, and the colour is
    the one listed for the label, never the white kept for the unknown
    label. *)
Theorem drawn_labels_and_colors :
  (forall d, confidenceInRange d -> (10 <= labelPercent d <= 90)%Z)
  /\ (forall d,
      hasClassifierLabel d ->
      objectColors_get objectColors (Detection.type d) = Some (detectionColor d)
      /\ detectionColor d <> "#ffffff"%string)
  /\ (forall env this,
      exists l this',
        processFrame env this = (Normal l, this')
        /\ Forall (fun d =>
                     (10 <= labelPercent d <= 90)%Z
                     /\ objectColors_get objectColors (Detection.type d)
                        = Some (detectionColor d)
                     /\ detectionColor d <> "#ffffff"%string) l).
Proof.
  split; [exact labelPercent_range|]. split; [exact detectionColor_label|].
  apply processFrame_Forall. intros contour. split.
  - apply labelPercent_range, detectionOf_confidence.
  - apply detectionColor_label, classifyObject_In.
Qed.

Lemma drawn_labels_and_colors_witness :
  (10 <= labelPercent (detectionOf discContour) <= 90)%Z.
Proof.
  apply (proj1 drawn_labels_and_colors (detectionOf discContour)).
  split; vm_compute; discriminate.
Defined.

(** ** The swipe *)

Lemma touchmove_translate (clientX innerWidth : Q) (s : Review.t) :
  Touch.isDragging (Review.touch s) = true ->
  Review.translateX (touchmove clientX innerWidth s)
  = Qmax (-50)
      (Qmin 0 (((clientX - Touch.startX (Review.touch s)) / innerWidth) * 100)).
Proof. intros H. unfold touchmove. now rewrite H. Qed.

(** X22. While a finger drags, the slider is moved by the drag as a
    percentage of the window width, kept between -50 and 0: it stays at 0
    for a drag to the right, follows a drag to the left, and stops at -50
    once the finger is half a window to the left of its start.  A move
    without a touch in progress changes nothing. *)
Theorem touchmove_slider_range :
  forall clientX innerWidth s,
    0 < innerWidth ->
    let startX := Touch.startX (Review.touch s) in
    (Touch.isDragging (Review.touch s) = false -> touchmove clientX innerWidth s = s)
    /\ (Touch.isDragging (Review.touch s) = true ->
        let translateX := Review.translateX (touchmove clientX innerWidth s) in
        -50 <= translateX <= 0
        /\ (startX <= clientX -> translateX == 0)
        /\ (startX - innerWidth / 2 <= clientX <= startX ->
            translateX == (clientX - startX) / innerWidth * 100)
        /\ (clientX <= startX - innerWidth / 2 -> translateX == -50)).
Proof.
  intros clientX innerWidth s Hw. cbv zeta. split.
  - intros H. unfold touchmove. now rewrite H.
  - intros H. rewrite (touchmove_translate _ _ _ H).
    set (delta := clientX - Touch.startX (Review.touch s)).
    assert (Hscale : forall a b, a <= b ->
                                 a / innerWidth * 100 <= b / innerWidth * 100).
    { intros a b Hab. apply Qmult_le_compat_r; [|discriminate].
      unfold Qdiv. apply Qmult_le_compat_r; [exact Hab|].
      apply Qlt_le_weak, Qinv_lt_0_compat, Hw. }
    assert (Hzero : 0 / innerWidth * 100 == 0) by (unfold Qdiv; ring).
    assert (Hhalf : (- (innerWidth / 2)) / innerWidth * 100 == -50).
    { field. intros E. rewrite E in Hw. discriminate. }
    split; [|split; [|split]].
    + split; [apply Q.le_max_l|].
      apply Q.max_lub; [discriminate | apply Q.le_min_l].
    + intros Hright.
      assert (H0 : 0 <= delta / innerWidth * 100).
      { rewrite <- Hzero. apply Hscale. unfold delta. lra. }
      rewrite (Q.min_l _ _ H0). apply Q.max_r. discriminate.
    + intros (Hlo & Hhi).
      assert (H0 : delta / innerWidth * 100 <= 0).
      { rewrite <- Hzero. apply Hscale. unfold delta. lra. }
      assert (H1 : -50 <= delta / innerWidth * 100).
      { rewrite <- Hhalf. apply Hscale. unfold delta. lra. }
      rewrite (Q.min_r _ _ H0). now apply Q.max_r.
    + intros Hfar.
      assert (H1 : delta / innerWidth * 100 <= -50).
      { rewrite <- Hhalf. apply Hscale. unfold delta. lra. }
      assert (H0 : delta / innerWidth * 100 <= 0) by lra.
      rewrite (Q.min_r _ _ H0). now apply Q.max_l.
Qed.

Lemma touchmove_slider_range_witness :
  Review.translateX (touchmove 100 400 (touchstart 300 Review.initial)) == -50.
Proof.
  apply (proj2 (touchmove_slider_range 100 400 (touchstart 300 Review.initial)
                  eq_refl) eq_refl).
  vm_compute. discriminate.
Defined.

Lemma touchend_action (innerWidth : Q) (s : Review.t) :
  0 < innerWidth ->
  Touch.isDragging (Review.touch s) = true ->
  let deltaX := Touch.currentX (Review.touch s) - Touch.startX (Review.touch s) in
  (snd (touchend innerWidth s) = Some SaveOriginal <-> innerWidth * 0.3 < deltaX)
  /\ (snd (touchend innerWidth s) = Some SaveEnhanced <-> innerWidth * 0.3 < - deltaX)
  /\ (snd (touchend innerWidth s) = None
      <-> - (innerWidth * 0.3) <= deltaX <= innerWidth * 0.3).
Proof.
  intros Hw Hdrag. cbv zeta. unfold touchend. rewrite Hdrag. cbn [negb snd].
  set (deltaX := Touch.currentX (Review.touch s) - Touch.startX (Review.touch s)).
  unfold Js.Math_abs.
  assert (Hthr : 0 < innerWidth * 0.3) by lra.
  destruct (Qabs deltaX >. innerWidth * 0.3) eqn:Ea.
  - apply gt_true in Ea.
    destruct (deltaX >. 0) eqn:Ed.
    + apply gt_true in Ed. rewrite (Qabs_pos deltaX) in Ea by lra.
      repeat split; intros; try discriminate; try lra.
    + apply gt_false in Ed. rewrite (Qabs_neg deltaX Ed) in Ea.
      repeat split; intros; try discriminate; try lra.
  - apply gt_false in Ea. apply Qabs_Qle_condition in Ea.
    repeat split; intros; try discriminate; try lra.
Qed.

(** X23. A swipe that ends after the finger has moved from [x0] to [x1]
    saves the original when [x1] is more than 0.3 window widths to the right
    of [x0], the enhanced image when it is more than 0.3 widths to the left,
    and nothing otherwise (0.3 widths exactly included); it puts the slider
    back at 0, and a second [touchend] does nothing. *)
Theorem swipe_decision :
  forall x0 x1 innerWidth s,
    0 < innerWidth ->
    let ended := touchend innerWidth (touchmove x1 innerWidth (touchstart x0 s)) in
    (snd ended = Some SaveOriginal <-> innerWidth * 0.3 < x1 - x0)
    /\ (snd ended = Some SaveEnhanced <-> innerWidth * 0.3 < x0 - x1)
    /\ (snd ended = None <-> - (innerWidth * 0.3) <= x1 - x0 <= innerWidth * 0.3)
    /\ Review.translateX (fst ended) = 0
    /\ touchend innerWidth (fst ended) = (fst ended, None).
Proof.
  intros x0 x1 innerWidth s Hw. cbv zeta.
  pose proof (touchend_action innerWidth (touchmove x1 innerWidth (touchstart x0 s))
                Hw eq_refl) as H.
  cbv zeta in H.
  cbn [touchmove touchstart Review.touch Touch.isDragging Touch.currentX
       Touch.startX negb] in H.
  destruct H as (Ho & He & Hn).
  split; [exact Ho|]. split; [|split; [exact Hn | split; reflexivity]].
  rewrite He. split; intros; lra.
Qed.

Lemma swipe_decision_witness :
  snd (touchend 400 (touchmove 100 400 (touchstart 300 Review.initial)))
  = Some SaveEnhanced.
Proof.
  apply (proj1 (proj2 (swipe_decision 300 100 400 Review.initial eq_refl))).
  reflexivity.
Defined.

(** X24. A touch that ends without having moved is not a swipe of length
    zero: [touchend] compares the new start with the position left by the
    last move of an earlier touch.  On the first touch of the review screen
    that position is 0, so a tap at [x] saves the enhanced image as soon as
    [x] is more than 0.3 window widths from the left edge. *)
Theorem tap_decided_by_old_position :
  (forall x innerWidth s,
      snd (touchend innerWidth (touchstart x s))
      = snd (touchend innerWidth
               (touchmove (Touch.currentX (Review.touch s)) innerWidth
                  (touchstart x s))))
  /\ (forall x innerWidth,
      0 < innerWidth ->
      0 <= x ->
      (snd (touchend innerWidth (touchstart x Review.initial)) = Some SaveEnhanced
       <-> innerWidth * 0.3 < x)
      /\ snd (touchend innerWidth (touchstart x Review.initial)) <> Some SaveOriginal).
Proof.
  split; [reflexivity|].
  intros x innerWidth Hw Hx.
  pose proof (touchend_action innerWidth (touchstart x Review.initial) Hw eq_refl) as H.
  cbv zeta in H.
  cbn [touchstart Review.initial Review.touch Touch.currentX Touch.startX] in H.
  destruct H as (Ho & He & _). split.
  - rewrite He. split; intros; lra.
  - rewrite Ho. intros H. lra.
Qed.

Lemma tap_decided_by_old_position_witness :
  snd (touchend 400 (touchstart 200 Review.initial)) = Some SaveEnhanced.
Proof.
  assert (Hx : 0 <= 200) by (vm_compute; discriminate).
  apply (proj1 (proj2 tap_decided_by_old_position 200 400 eq_refl Hx)).
  reflexivity.
Defined.
